(** * dugite-extra: checkout progress reporting, argument building and
      the file helpers of the test suite

    A shallow embedding of [src/command/checkout.ts] and
    [src/command/test-helper.ts].  JavaScript strings are [string], a JS
    [number] is an exact rational ([Q]), an optional parameter or an optional
    object field is an [option], and the effects of the code (invoking the
    progress callback, spawning git, touching the file system) are threaded
    explicitly through small monads. *)

From Stdlib Require Import String Ascii List ZArith NArith QArith Lia Bool.
From Stdlib Require Import DecimalString DecimalPos DecimalN.
From stdpp Require Import gmap strings.
Import ListNotations.

Open Scope string_scope.
Open Scope list_scope.

(* ================================================================== *)
(** * Part I: the embedding *)
(* ================================================================== *)

(** ** JavaScript truthiness, for the conditions the code relies on *)

Module Js.

(** [if (s)] on a string: every string but the empty one is truthy. *)
Definition truthy_string (s : string) : bool :=
  negb (String.eqb s "").

(** [if (b)] on an optional boolean parameter [b?: boolean]:
    [undefined] and [false] are falsy. *)
Definition truthy_flag (b : option bool) : bool :=
  match b with
  | Some true => true
  | _ => false
  end.

(** [if (x)] on an optional function or object: truthy when present. *)
Definition truthy_opt {A : Type} (x : option A) : bool :=
  match x with
  | Some _ => true
  | None => false
  end.

(** [a.push(x)] and [a.push(...xs)] on an array held as a list. *)
Definition push {A : Type} (a : list A) (x : A) : list A := a ++ [x].
Definition push_all {A : Type} (a xs : list A) : list A := a ++ xs.

End Js.

(** ** Progress records and the parser interface ([../progress]) *)

Module Progress.

(** Modelled from the spec: the declaration of the parser's result type is
    not among the sources.  The spec gives a tagged variant, either
    [Progress{text, percent}] or [Unknown]; the code reads the tag as
    [progress.kind], the text as [progress.details.text] and the fraction
    as [progress.percent]. *)
Inductive ProgressRecord : Type :=
| Progress (text : string) (percent : Q)
| Unknown.

Definition kind (r : ProgressRecord) : string :=
  match r with
  | Progress _ _ => "progress"
  | Unknown => "unknown"
  end.

Definition is_progress (r : ProgressRecord) : bool :=
  String.eqb (kind r) "progress".

(** Modelled from the spec: the parser class is not among the sources.
    A parser instance owns a buffer ([state]), is fed the chunks of the
    output stream one call at a time, each call giving zero or more
    records, and is flushed once when the stream closes. *)
Record Parser : Type := {
  state : Type;
  init : state;
  feed : state -> string -> state * list ProgressRecord;
  flush : state -> list ProgressRecord
}.

(** All the records an instance yields over a whole stream, in receipt
    order: the records of each chunk, then those of the final flush. *)
Fixpoint records_from (P : Parser) (st : state P) (chunks : list string)
  : list ProgressRecord :=
  match chunks with
  | [] => flush P st
  | c :: cs =>
      let '(st', rs) := feed P st c in
      rs ++ records_from P st' cs
  end.

Definition records_of (P : Parser) (chunks : list string)
  : list ProgressRecord :=
  records_from P (init P) chunks.

End Progress.

(** ** What a run of the code does to the outside world *)

Module Git.

Import Progress.

(** The event object handed to the caller's callback.  A field that the
    object literal does not mention is absent ([None]). *)
Record ICheckoutProgress : Type := {
  kind : string;
  title : string;
  description : option string;
  value : Q;
  targetBranch : option string
}.

(** The names of the fields an event object carries. *)
Definition fields (e : ICheckoutProgress) : list string :=
  ["kind"; "title"]
    ++ (if Js.truthy_opt (description e) then ["description"] else [])
    ++ ["value"]
    ++ (if Js.truthy_opt (targetBranch e) then ["targetBranch"] else []).

(** The observable actions, in the order they happen. *)
Inductive Obs : Type :=
| Notified (e : ICheckoutProgress)
    (* the caller's progress callback was invoked with [e] *)
| Spawned (args : list string) (path : string) (name : string).
    (* git was run with [args] in [path] under the operation [name] *)

(** Effectful code: a result together with the actions it performed. *)
Definition M (A : Type) : Type := (A * list Obs)%type.

Definition ret {A : Type} (a : A) : M A := (a, []).

Definition bind {A B : Type} (m : M A) (k : A -> M B) : M B :=
  let '(a, w1) := m in
  let '(b, w2) := k a in
  (b, w1 ++ w2).

Definition tell (o : Obs) : M unit := (tt, [o]).

Definition trace {A : Type} (m : M A) : list Obs := snd m.

Declare Scope git_scope.
Delimit Scope git_scope with git.
Notation "x <- m ;; k" := (bind m (fun x => k))
  (at level 100, m at next level, k at level 200, right associativity)
  : git_scope.
Notation "m ;; k" := (bind m (fun _ => k))
  (at level 100, k at level 200, right associativity) : git_scope.

(** [for (const x of xs) body(x)] *)
Fixpoint for_each {A : Type} (xs : list A) (body : A -> M unit) : M unit :=
  match xs with
  | [] => ret tt
  | x :: xs' => (body x ;; for_each xs' body)%git
  end.

(** The events delivered to the callback, read off a trace. *)
Fixpoint notifications (w : list Obs) : list ICheckoutProgress :=
  match w with
  | [] => []
  | Notified e :: w' => e :: notifications w'
  | Spawned _ _ _ :: w' => notifications w'
  end.

(** The child process, as far as this code observes it: the chunks its
    output stream delivers before it closes. *)
Record ChildProcess : Type := { stderr : list string }.

Definition ProcessCallback : Type := ChildProcess -> M unit.

(** A callback is taken to return from every invocation: [M] has no
    failure, so a callback that throws is outside this model. *)
Definition ProgressCallback : Type := ICheckoutProgress -> M unit.

(** The caller's callback as an observer: an invocation is an action. *)
Definition observer : ProgressCallback := fun e => tell (Notified e).

(** Modelled from the spec: the declaration of [IGitExecutionOptions] is
    not among the sources; the two fields the sources set are kept. *)
Record IGitExecutionOptions : Type := {
  stdin : option string;
  processCallback : option ProcessCallback
}.

(** [{ ...options, processCallback }] *)
Definition with_processCallback (options : option IGitExecutionOptions)
    (cb : option ProcessCallback) : IGitExecutionOptions :=
  {| stdin := match options with Some o => stdin o | None => None end;
     processCallback := cb |}.

(** Modelled from the spec: the loop of the adapter is not among the
    sources.  Every chunk of the stream is fed to the parser and each record
    that comes out is passed on synchronously, in receipt order; when the
    stream closes the parser is flushed. *)
Fixpoint pump (P : Parser) (st : state P) (chunks : list string)
    (onProgress : ProgressRecord -> M unit) : M unit :=
  match chunks with
  | [] => for_each (flush P st) onProgress
  | c :: cs =>
      let '(st', rs) := feed P st c in
      (for_each rs onProgress ;; pump P st' cs onProgress)%git
  end.

(** Modelled from the spec: [progressProcessCallback] is not among the
    sources.  The adapter wires a parser instance to the output stream of
    a process.  Building it performs no action: it runs once a process is
    handed to it. *)
Definition progressProcessCallback (P : Parser)
    (onProgress : ProgressRecord -> M unit) : ProcessCallback :=
  fun process => pump P (init P) (stderr process) onProgress.

(** Modelled from the spec: [git] of [../core/git] is not among the
    sources.  It spawns the external tool with the given arguments and,
    when the options carry a process callback, hands the spawned process
    to it; [process] is the process this spawn creates. *)
Definition git (process : ChildProcess) (args : list string)
    (path name : string) (options : option IGitExecutionOptions) : M unit :=
  (tell (Spawned args path name) ;;
   match options with
   | Some o =>
       match processCallback o with
       | Some cb => cb process
       | None => ret tt
       end
   | None => ret tt
   end)%git.

End Git.

(** ** [src/command/checkout.ts] *)

Module Checkout.

Import Progress Git.

Section WithEnvironment.

(** [new CheckoutProgressParser()]: the class is not among the sources,
    so the instance it creates is a parameter here. *)
Variable newCheckoutProgressParser : Parser.

(** [Path.relative] of Node's [path] module. *)
Variable relative : string -> string -> string.

(** The process the spawn inside [git] creates. *)
Variable process : ChildProcess.

Definition checkoutBranch (repositoryPath name : string)
    (options : option IGitExecutionOptions)
    (progressCallback : option ProgressCallback) : M unit :=
  (processCallback <-
     match progressCallback with
     | Some progressCallback =>
         let title := "Checking out branch " +:+ name in
         let kind := "checkout" in
         let targetBranch := name in
         let processCallback :=
           progressProcessCallback newCheckoutProgressParser
             (fun progress =>
                if String.eqb (Progress.kind progress) "progress" then
                  match progress with
                  | Progress text percent =>
                      let description := text in
                      let value := percent in
                      progressCallback
                        {| Git.kind := kind;
                           Git.title := title;
                           Git.description := Some description;
                           Git.value := value;
                           Git.targetBranch := Some targetBranch |}
                  | Unknown => ret tt
                  end
                else ret tt) in
         (* Initial progress *)
         (progressCallback
            {| Git.kind := kind;
               Git.title := title;
               Git.description := None;
               Git.value := 0;
               Git.targetBranch := Some targetBranch |} ;;
          ret (Some processCallback))
     | None => ret None
     end ;;
   let args :=
     if Js.truthy_opt processCallback
     then ["checkout"; "--progress"; name; "--"]
     else ["checkout"; name; "--"] in
   let opts := with_processCallback options processCallback in
   git process args repositoryPath "checkoutBranch" (Some opts))%git.

Definition checkout (repositoryPath : string) (paths : list string)
    (commitSHA : string) (merge force : option bool)
    (options : option IGitExecutionOptions) : M unit :=
  let args := ["checkout"] in
  let args :=
    if Js.truthy_string commitSHA then Js.push args commitSHA else args in
  let args := if Js.truthy_flag merge then Js.push args "-m" else args in
  let args := if Js.truthy_flag force then Js.push args "-f" else args in
  let args := Js.push args "--" in
  let args :=
    Js.push_all args (map (fun p => relative repositoryPath p) paths) in
  git process args repositoryPath "checkoutPaths" options.

(** Check out the paths at HEAD. *)
Definition checkoutPaths (repositoryPath : string) (paths : list string)
    (options : option IGitExecutionOptions) : M unit :=
  checkout repositoryPath paths "HEAD" (Some false) (Some false) options.

End WithEnvironment.

End Checkout.

(** ** The checkout progress parser *)

(** Modelled from the spec: the parser of [../progress] is not among the
    sources, so this whole module follows the spec's description of it.
    Where the spec leaves a detail open the simplest reading is taken: a
    line ends at a line feed, the label is what precedes the last colon of
    the line, and nothing after the pattern is looked at. *)

Module CheckoutParser.

Import Progress.

(** *** Reading the pieces of a line *)

Definition digit_of (c : ascii) : option (Decimal.uint -> Decimal.uint) :=
  match c with
  | "0"%char => Some Decimal.D0
  | "1"%char => Some Decimal.D1
  | "2"%char => Some Decimal.D2
  | "3"%char => Some Decimal.D3
  | "4"%char => Some Decimal.D4
  | "5"%char => Some Decimal.D5
  | "6"%char => Some Decimal.D6
  | "7"%char => Some Decimal.D7
  | "8"%char => Some Decimal.D8
  | "9"%char => Some Decimal.D9
  | _ => None
  end.

(** The longest run of decimal digits at the front of [s], and the rest. *)
Fixpoint read_digits (s : string) : Decimal.uint * string :=
  match s with
  | EmptyString => (Decimal.Nil, EmptyString)
  | String c s' =>
      match digit_of c with
      | Some d => let '(u, r) := read_digits s' in (d u, r)
      | None => (Decimal.Nil, s)
      end
  end.

(** A number is at least one digit. *)
Definition read_number (s : string) : option (N * string) :=
  match read_digits s with
  | (Decimal.Nil, _) => None
  | (u, r) => Some (N.of_uint u, r)
  end.

Definition expect (c : ascii) (s : string) : option string :=
  match s with
  | String c' s' => if Ascii.eqb c c' then Some s' else None
  | EmptyString => None
  end.

Fixpoint skip_spaces (s : string) : string :=
  match s with
  | String " "%char s' => skip_spaces s'
  | _ => s
  end.

(** The phase label is what precedes the last colon of the line. *)
Fixpoint split_label (s : string) : option (string * string) :=
  match s with
  | EmptyString => None
  | String c s' =>
      match split_label s' with
      | Some (l, b) => Some (String c l, b)
      | None => if Ascii.eqb c ":"%char then Some (EmptyString, s') else None
      end
  end.

(** "(count/total)" *)
Definition read_pair (s : string) : option (N * N) :=
  match expect "("%char s with
  | Some s1 =>
      match read_number s1 with
      | Some (count, s2) =>
          match expect "/"%char s2 with
          | Some s3 =>
              match read_number s3 with
              | Some (total, s4) =>
                  match expect ")"%char s4 with
                  | Some _ => Some (count, total)
                  | None => None
                  end
              | None => None
              end
          | None => None
          end
      | None => None
      end
  | None => None
  end.

(** Modelled from the spec: what a line that matches the progress pattern
    is made of, a phase label followed by a percent token, a count and a
    total, as in "Checking out files: 42% (420/1000)". *)
Record Match : Type := {
  label : string;
  token : option N;     (* the explicit percent token, "42%" *)
  pair : option (N * N) (* the "count/total" pair, "(420/1000)" *)
}.

(** Modelled from the spec: after the label comes a percent token, a pair,
    or a token and then a pair; what follows them is not looked at. *)
Definition read_body (s : string) : option (option N * option (N * N)) :=
  match read_number s with
  | Some (p, r) =>
      match expect "%"%char r with
      | Some r' => Some (Some p, read_pair (skip_spaces r'))
      | None => None
      end
  | None =>
      match read_pair s with
      | Some ct => Some (None, Some ct)
      | None => None
      end
  end.

(** Modelled from the spec: the known pattern.  The label is not empty and
    blanks may separate it from what follows. *)
Definition match_line (line : string) : option Match :=
  match split_label line with
  | Some (EmptyString, _) => None
  | Some (l, rest) =>
      match read_body (skip_spaces rest) with
      | Some (t, p) => Some {| label := l; token := t; pair := p |}
      | None => None
      end
  | None => None
  end.

Definition number (n : N) : Q := inject_Z (Z.of_N n).

(** Modelled from the spec: the fraction done is computed from the pair
    when there is one, a zero total counting as no progress, and is taken
    from the percent token otherwise. *)
Definition percent_of (m : Match) : Q :=
  match pair m with
  | Some (count, total) =>
      if N.eqb total 0 then 0 else number count / number total
  | None =>
      match token m with
      | Some p => number p / 100
      | None => 0
      end
  end.

(** Modelled from the spec: the line parser is not among the sources.
    A line that matches the pattern "label: 42% (420/1000)" gives one
    [Progress] record carrying the line's text; any other line gives no
    record. *)
Definition parse_line (line : string) : option ProgressRecord :=
  match match_line line with
  | Some m => Some (Progress line (percent_of m))
  | None => None
  end.

(** *** Chunks and lines *)

Definition newline : ascii := "010"%char.

(** The complete lines of [s] (each ended by a line break, which is
    dropped) and the incomplete line left after the last break. *)
Fixpoint split_lines (s : string) : list string * string :=
  match s with
  | EmptyString => ([], EmptyString)
  | String c s' =>
      let '(ls, r) := split_lines s' in
      if Ascii.eqb c newline then (EmptyString :: ls, r)
      else
        match ls with
        | [] => ([], String c r)
        | l :: ls' => (String c l :: ls', r)
        end
  end.

(** The inverse direction: complete lines with their breaks, then the
    incomplete rest. *)
Fixpoint unlines (ls : list string) (r : string) : string :=
  match ls with
  | [] => r
  | l :: ls' => l +:+ String newline (unlines ls' r)
  end.

Fixpoint has_newline (s : string) : bool :=
  match s with
  | EmptyString => false
  | String c s' => Ascii.eqb c newline || has_newline s'
  end.

(** Modelled from the spec: one call of the parser.  The buffered incomplete
    line is put in front of the chunk, every line completed by the chunk is
    parsed, and the incomplete rest is buffered for the next call. *)
Definition feed (buffer chunk : string) : string * list ProgressRecord :=
  let '(ls, r) := split_lines (buffer +:+ chunk) in
  (r, omap parse_line ls).

(** Modelled from the spec: the final flush.  Whatever is still buffered is
    tried as a line and dropped if it does not match. *)
Definition flush (buffer : string) : list ProgressRecord :=
  match parse_line buffer with
  | Some r => [r]
  | None => []
  end.

(** Modelled from the spec: the class [CheckoutProgressParser] is not
    among the sources.  An instance starts with an empty buffer. *)
Definition CheckoutProgressParser : Parser :=
  {| state := string;
     init := EmptyString;
     Progress.feed := feed;
     Progress.flush := flush |}.

(** The text of a stream: its chunks one after the other. *)
Fixpoint text_of (chunks : list string) : string :=
  match chunks with
  | [] => EmptyString
  | c :: cs => c +:+ text_of cs
  end.

(** All the lines of a text, the incomplete last one included. *)
Definition lines_of (text : string) : list string :=
  let '(ls, r) := split_lines text in ls ++ [r].

(** Cutting a text in two at an offset. *)
Fixpoint split_at (n : nat) (s : string) : string * string :=
  match n, s with
  | O, _ => (EmptyString, s)
  | S _, EmptyString => (EmptyString, EmptyString)
  | S n', String c s' => let '(a, b) := split_at n' s' in (String c a, b)
  end.

(** A text that does not begin with a digit stops a run of digits. *)
Definition stops_digits (s : string) : Prop :=
  match s with
  | EmptyString => True
  | String c _ => digit_of c = None
  end.

(** Whether a text has a colon in it. *)
Fixpoint has_colon (s : string) : bool :=
  match s with
  | EmptyString => false
  | String c s' => Ascii.eqb c ":"%char || has_colon s'
  end.

(** A progress line as the tool prints it. *)
Definition decimal (n : N) : string :=
  NilEmpty.string_of_uint (N.to_uint n).

Definition render (l : string) (p count total : N) : string :=
  l +:+ ": " +:+ decimal p +:+ "% (" +:+ decimal count +:+ "/"
    +:+ decimal total +:+ ")".

End CheckoutParser.

(** ** [src/command/test-helper.ts] *)

Module TestHelper.

(** The file system, as far as the helpers observe it: what is found at
    each path. *)
Inductive Node : Type :=
| File (data : string)
| Directory.

Abbreviation FS := (gmap string Node).

Inductive Result (A : Type) : Type :=
| Ok (a : A)
| Throw (message : string).
Arguments Ok {A} a.
Arguments Throw {A} message.

(** Code that reads and writes the file system and may throw; what was
    written before a throw stays written. *)
Definition M (A : Type) : Type := FS -> Result A * FS.

Definition ret {A : Type} (a : A) : M A := fun fs => (Ok a, fs).

Definition bind {A B : Type} (m : M A) (k : A -> M B) : M B :=
  fun fs =>
    match m fs with
    | (Ok a, fs') => k a fs'
    | (Throw e, fs') => (Throw e, fs')
    end.

Definition throw {A : Type} (message : string) : M A :=
  fun fs => (Throw message, fs).

Declare Scope fs_scope.
Delimit Scope fs_scope with fs.
Notation "x <- m ;; k" := (bind m (fun x => k))
  (at level 100, m at next level, k at level 200, right associativity)
  : fs_scope.
Notation "m ;; k" := (bind m (fun _ => k))
  (at level 100, k at level 200, right associativity) : fs_scope.

(** [if (c) { throw new Error(message) }] *)
Definition throw_if (c : bool) (message : string) : M unit :=
  if c then throw message else ret tt.

(** [for (const x of xs) body(x)] *)
Fixpoint for_each {A : Type} (xs : list A) (body : A -> M unit) : M unit :=
  match xs with
  | [] => ret tt
  | x :: xs' => (body x ;; for_each xs' body)%fs
  end.

(** *** The calls into [fs-extra] *)

Definition is_file (fs : FS) (p : string) : bool :=
  match fs !! p with
  | Some (File _) => true
  | _ => false
  end.

Definition exists_at (fs : FS) (p : string) : bool :=
  match fs !! p with
  | Some _ => true
  | None => false
  end.

Definition existsSync (p : string) : M bool :=
  fun fs => (Ok (exists_at fs p), fs).

(** [fs.statSync(p).isFile()] *)
Definition statSync_isFile (p : string) : M bool :=
  fun fs =>
    match fs !! p with
    | Some (File _) => (Ok true, fs)
    | Some Directory => (Ok false, fs)
    | None => (Throw ("ENOENT: no such file or directory, stat " +:+ p), fs)
    end.

Definition unlinkSync (p : string) : M unit :=
  fun fs =>
    match fs !! p with
    | Some (File _) => (Ok tt, delete p fs)
    | Some Directory =>
        (Throw ("EPERM: operation not permitted, unlink " +:+ p), fs)
    | None =>
        (Throw ("ENOENT: no such file or directory, unlink " +:+ p), fs)
    end.

(** The directory that is to hold [p] is taken to be there: the map does
    not tell which path lies in which directory. *)
Definition writeFileSync (p data : string) : M unit :=
  fun fs =>
    match fs !! p with
    | Some Directory =>
        (Throw ("EISDIR: illegal operation on a directory, open " +:+ p), fs)
    | _ => (Ok tt, <[p := File data]> fs)
    end.

Definition readFileSync (p : string) : M string :=
  fun fs =>
    match fs !! p with
    | Some (File data) => (Ok data, fs)
    | Some Directory =>
        (Throw ("EISDIR: illegal operation on a directory, read " +:+ p), fs)
    | None =>
        (Throw ("ENOENT: no such file or directory, open " +:+ p), fs)
    end.

(** The directory that is to hold [newPath] is taken to be there. *)
Definition renameSync (oldPath newPath : string) : M unit :=
  fun fs =>
    match fs !! oldPath with
    | Some node => (Ok tt, <[newPath := node]> (delete oldPath fs))
    | None =>
        (Throw ("ENOENT: no such file or directory, rename " +:+ oldPath), fs)
    end.

(** [Array.isArray(x) ? x : [x]] *)
Definition as_array {A : Type} (x : A + list A) : list A :=
  match x with
  | inl a => [a]
  | inr l => l
  end.

Record FileToCreate : Type := { cpath : string; cdata : option string }.
Record FileToModify : Type := { mpath : string; mdata : string }.
Record FileToRename : Type := { oldPath : string; newPath : string }.

Section WithPath.

(** [path.join] of Node's [path] module. *)
Variable join : string -> string -> string.

Definition remove_one (f : string) : M unit :=
  (e <- existsSync f ;;
   throw_if (negb e) ("Cannot delete file " +:+ f +:+ ", it does not exist.") ;;
   isf <- statSync_isFile f ;;
   throw_if (negb isf)
     ("Only files can be deleted, directories not: " +:+ f +:+ ".") ;;
   unlinkSync f ;;
   e' <- existsSync f ;;
   throw_if e' ("Cannot delete file: " +:+ f +:+ "."))%fs.

Definition remove (repositoryPath : string)
    (filesToDelete : string + list string) : M (list string) :=
  let files :=
    map (fun f => join repositoryPath f) (as_array filesToDelete) in
  (for_each files remove_one ;;
   ret files)%fs.

Definition add_one (f : FileToModify) : M unit :=
  (e <- existsSync (mpath f) ;;
   throw_if e ("File " +:+ mpath f +:+ ", already exists.") ;;
   writeFileSync (mpath f) (mdata f) ;;
   e' <- existsSync (mpath f) ;;
   throw_if (negb e') ("Cannot create new file: " +:+ mpath f +:+ "."))%fs.

Definition add (repositoryPath : string)
    (filesToCreate : FileToCreate + list FileToCreate) : M (list string) :=
  let files :=
    map (fun f =>
           {| mpath := join repositoryPath (cpath f);
              mdata := match cdata f with
                       | Some d => if Js.truthy_string d then d else ""
                       | None => ""
                       end |})
        (as_array filesToCreate) in
  (for_each files add_one ;;
   ret (map (fun f => mpath f) files))%fs.

Definition modify_one (f : FileToModify) : M unit :=
  (e <- existsSync (mpath f) ;;
   throw_if (negb e)
     ("Cannot modify the content of the file " +:+ mpath f
        +:+ ", it does not exist.") ;;
   isf <- statSync_isFile (mpath f) ;;
   throw_if (negb isf)
     ("Only files can be modified, directories not: " +:+ mpath f +:+ ".") ;;
   writeFileSync (mpath f) (mdata f) ;;
   e' <- existsSync (mpath f) ;;
   bad <-
     (if negb e' then ret true
      else (d <- readFileSync (mpath f) ;;
            ret (negb (String.eqb d (mdata f))))) ;;
   throw_if bad
     ("Cannot modify the file content file: " +:+ mpath f +:+ "."))%fs.

Definition modify (repositoryPath : string)
    (filesToModify : FileToModify + list FileToModify) : M (list string) :=
  let files :=
    map (fun f =>
           {| mpath := join repositoryPath (mpath f); mdata := mdata f |})
        (as_array filesToModify) in
  (for_each files modify_one ;;
   ret (map (fun f => mpath f) files))%fs.

Definition rename_one (f : FileToRename) : M unit :=
  (e <- existsSync (oldPath f) ;;
   throw_if (negb e)
     ("Cannot rename the file " +:+ oldPath f +:+ ", it does not exist.") ;;
   e2 <- existsSync (newPath f) ;;
   throw_if e2
     ("Cannot rename the file " +:+ oldPath f
        +:+ ", a file already exists in the destination: "
        +:+ newPath f +:+ ".") ;;
   isf <- statSync_isFile (oldPath f) ;;
   throw_if (negb isf)
     ("Only files can be renamed, directories not: " +:+ oldPath f +:+ ".") ;;
   renameSync (oldPath f) (newPath f) ;;
   en <- existsSync (newPath f) ;;
   eo <- existsSync (oldPath f) ;;
   throw_if (negb en || eo)
     ("Cannot rename file: " +:+ oldPath f +:+ " -> " +:+ newPath f +:+ "."))%fs.

Definition rename (repositoryPath : string)
    (filesToRename : FileToRename + list FileToRename) : M (list string) :=
  let files :=
    map (fun f =>
           {| oldPath := join repositoryPath (oldPath f);
              newPath := join repositoryPath (newPath f) |})
        (as_array filesToRename) in
  (for_each files rename_one ;;
   ret (map (fun f => oldPath f) files ++ map (fun f => newPath f) files))%fs.

End WithPath.

End TestHelper.

(* ================================================================== *)
(** * Part II: the vocabulary of the statements *)
(* ================================================================== *)

Module Spec.

Import Progress Git.

(** The synthetic start event of a checkout of branch [name]. *)
Definition start_event (name : string) : ICheckoutProgress :=
  {| kind := "checkout";
     title := "Checking out branch " +:+ name;
     description := None;
     value := 0;
     targetBranch := Some name |}.

(** [derives name r e]: [e] is the event a checkout of [name] reports
    for the parsed record [r]. *)
Inductive derives (name : string) : ProgressRecord -> ICheckoutProgress -> Prop :=
| derives_progress (text : string) (percent : Q) :
    derives name (Progress text percent)
      {| kind := "checkout";
         title := "Checking out branch " +:+ name;
         description := Some text;
         value := percent;
         targetBranch := Some name |}.

(** The events of a sequence of records, in order. *)
Fixpoint stream_events (name : string) (rs : list ProgressRecord)
  : list ICheckoutProgress :=
  match rs with
  | [] => []
  | Progress text percent :: rs' =>
      {| kind := "checkout";
         title := "Checking out branch " +:+ name;
         description := Some text;
         value := percent;
         targetBranch := Some name |} :: stream_events name rs'
  | Unknown :: rs' => stream_events name rs'
  end.

(** The git invocations of a trace: arguments, directory, operation. *)
Fixpoint spawns (w : list Obs) : list (list string * string * string) :=
  match w with
  | [] => []
  | Spawned args path name :: w' => (args, path, name) :: spawns w'
  | Notified _ :: w' => spawns w'
  end.

Definition full_field_set : list string :=
  ["kind"; "title"; "description"; "value"; "targetBranch"].

Definition in_unit_interval (q : Q) : Prop := (0 <= q)%Q /\ (q <= 1)%Q.

(** What every event of the stream has, whatever its value: the five
    fields, and the kind, title and target branch of a checkout of [name]. *)
Definition stream_event_shape (name : string) (e : ICheckoutProgress) : Prop :=
  fields e = full_field_set
  /\ kind e = "checkout"
  /\ title e = "Checking out branch " +:+ name
  /\ targetBranch e = Some name.

(** [reports r e]: the event [e] carries the text of the record [r] as its
    description and the percent of [r], as parsed, as its value. *)
Definition reports (r : ProgressRecord) (e : ICheckoutProgress) : Prop :=
  match r with
  | Progress text percent => description e = Some text /\ value e = percent
  | Unknown => False
  end.

(** What claim C7 asks of an event delivered by a checkout of [name]. *)
Definition complete_event (name : string) (e : ICheckoutProgress) : Prop :=
  fields e = full_field_set
  /\ kind e = "checkout"
  /\ title e = "Checking out branch " +:+ name
  /\ targetBranch e = Some name
  /\ in_unit_interval (value e).

End Spec.

Module HelperSpec.

Import TestHelper.

Section WithPath.

Variable join : string -> string -> string.

(** What handling one entry does to the file system when it succeeds. *)
Definition removed (repositoryPath : string) (fs : FS) (f : string) : FS :=
  delete (join repositoryPath f) fs.

Definition added (repositoryPath : string) (fs : FS) (f : FileToCreate)
  : FS :=
  <[join repositoryPath (cpath f) :=
      File (match cdata f with Some d => d | None => "" end)]> fs.

Definition modified (repositoryPath : string) (fs : FS) (f : FileToModify)
  : FS :=
  <[join repositoryPath (mpath f) := File (mdata f)]> fs.

Definition renamed (repositoryPath : string) (fs : FS) (f : FileToRename)
  : FS :=
  match fs !! join repositoryPath (oldPath f) with
  | Some node =>
      <[join repositoryPath (newPath f) := node]>
        (delete (join repositoryPath (oldPath f)) fs)
  | None => fs
  end.

(** The checks an entry has to pass before anything is done for it. *)
Definition remove_refused (repositoryPath : string) (fs : FS) (f : string)
  : Prop :=
  is_file fs (join repositoryPath f) = false.

Definition add_refused (repositoryPath : string) (fs : FS)
    (f : FileToCreate) : Prop :=
  exists_at fs (join repositoryPath (cpath f)) = true.

Definition modify_refused (repositoryPath : string) (fs : FS)
    (f : FileToModify) : Prop :=
  is_file fs (join repositoryPath (mpath f)) = false.

Definition rename_refused (repositoryPath : string) (fs : FS)
    (f : FileToRename) : Prop :=
  is_file fs (join repositoryPath (oldPath f)) = false
  \/ exists_at fs (join repositoryPath (newPath f)) = true.

End WithPath.

(** A join for concrete runs: the two parts with a separator between. *)
Definition posix_join (a b : string) : string := a +:+ "/" +:+ b.

(** Whether a path is absolute, as [path.isAbsolute] tells on POSIX: it
    begins with a separator. *)
Definition is_absolute (p : string) : bool :=
  match p with
  | String "/"%char _ => true
  | _ => false
  end.

(** A small repository on disk. *)
Definition sample_fs : FS :=
  <["/repo/A.txt" := File "A"]>
    (<["/repo/B.txt" := File "B"]>
       (<["/repo/folder" := Directory]> ∅)).

End HelperSpec.

(* ================================================================== *)
(** * Part I, continued: the rest of the sources *)
(* ================================================================== *)

(** ** [src/command/merge.ts] *)

Module Merge.

Import Git.

Section WithEnvironment.

(** The process the spawn inside [git] creates. *)
Variable process : ChildProcess.

(** Merge the named branch into the current branch. *)
Definition merge (repositoryPath branch : string)
    (options : option IGitExecutionOptions) : M unit :=
  git process ["merge"; branch] repositoryPath "merge" options.

End WithEnvironment.

End Merge.

(** ** [src/command/test-helper.ts]: the repository fixtures *)

Module Fixture.

Import TestHelper.

(** One run of git, as the fixtures issue it: the arguments, the directory,
    the name of the operation and what is written to its standard input. *)
Record GitCall : Type := {
  call_args : list string;
  call_path : string;
  call_name : string;
  call_stdin : option string
}.

(** What a run of git resolves to, as far as the fixtures read it. *)
Record IGitResult : Type := { exitCode : Z }.

(** The world of the fixtures: the file system, and the runs of git so far
    in the order they were issued, each with the exit code it gave. *)
Record World : Type := {
  files : FS;
  calls : list (GitCall * Z)
}.

Definition W (A : Type) : Type := World -> Result A * World.

Definition ret {A : Type} (a : A) : W A := fun w => (Ok a, w).

Definition bind {A B : Type} (m : W A) (k : A -> W B) : W B :=
  fun w =>
    match m w with
    | (Ok a, w') => k a w'
    | (Throw e, w') => (Throw e, w')
    end.

Definition throw {A : Type} (message : string) : W A :=
  fun w => (Throw message, w).

Declare Scope fixture_scope.
Delimit Scope fixture_scope with fixture.
Notation "x <- m ;; k" := (bind m (fun x => k))
  (at level 100, m at next level, k at level 200, right associativity)
  : fixture_scope.
Notation "m ;; k" := (bind m (fun _ => k))
  (at level 100, k at level 200, right associativity) : fixture_scope.

(** [if (c) { throw new Error(message) }] *)
Definition throw_if (c : bool) (message : string) : W unit :=
  if c then throw message else ret tt.

(** A call into [fs-extra] made from the fixtures. *)
Definition on_files {A : Type} (m : TestHelper.M A) : W A :=
  fun w =>
    let '(r, fs') := m (files w) in
    (r, {| files := fs'; calls := calls w |}).

(** [fs.mkdirSync(p)], without the recursive option; the directory that is
    to hold [p] is taken to be there. *)
Definition mkdirSync (p : string) : TestHelper.M unit :=
  fun fs =>
    match fs !! p with
    | Some _ => (Throw ("EEXIST: file already exists, mkdir " +:+ p), fs)
    | None => (Ok tt, <[p := Directory]> fs)
    end.

(** The double quote, which the configured name and mail address carry. *)
Definition dquote : ascii := "034"%char.

Definition quoted (s : string) : string :=
  String dquote (s +:+ String dquote EmptyString).

(** [process.env.USE_LOCAL_GIT === 'true'] *)
Definition usesLocalGit (env : gmap string string) : bool :=
  match env !! "USE_LOCAL_GIT" with
  | Some v => String.eqb v "true"
  | None => false
  end.

Section WithEnvironment.

(** [path.join] of Node's [path] module. *)
Variable join : string -> string -> string.

(** The external tool: in a given world, the exit code a run of git gives
    and the file system it leaves. *)
Variable tool : World -> GitCall -> Z * FS.

(** [git] of [../core/git] as the fixtures use it: the run is issued, and
    the promise resolves to a result carrying the exit code. *)
Definition git (args : list string) (path name : string)
    (options : option Git.IGitExecutionOptions) : W IGitResult :=
  fun w =>
    let call :=
      {| call_args := args;
         call_path := path;
         call_name := name;
         call_stdin := match options with
                       | Some o => Git.stdin o
                       | None => None
                       end |} in
    let '(code, fs') := tool w call in
    (Ok {| exitCode := code |},
     {| files := fs'; calls := calls w ++ [(call, code)] |}).

Definition initRepository (path : string) (add commit : option bool)
  : W string :=
  (r <- git ["init"] path "init" None ;;
   throw_if (negb (Z.eqb (exitCode r) 0))
     ("Error while initializing a repository under " +:+ path +:+ ".") ;;
   r <- git ["config"; "user.email"; quoted "jon@doe.com"] path "config" None ;;
   throw_if (negb (Z.eqb (exitCode r) 0))
     "Error while setting user email to the Git configuration." ;;
   r <- git ["config"; "user.name"; quoted "Jon Doe"] path "config" None ;;
   throw_if (negb (Z.eqb (exitCode r) 0))
     "Error while setting user name to the Git configuration." ;;
   (if Js.truthy_flag add then
      (r <- git ["add"; "."] path "add" None ;;
       throw_if (negb (Z.eqb (exitCode r) 0))
         "Error while staging changes into the repository." ;;
       if Js.truthy_flag commit then
         (r <- git ["commit"; "-F"; "-"] path "createCommit"
                 (Some {| Git.stdin := Some "Initial commit.";
                          Git.processCallback := None |}) ;;
          throw_if (negb (Z.eqb (exitCode r) 0))
            "Error while committing changes into the repository")
       else ret tt)
    else ret tt) ;;
   ret path)%fixture.

(** [path.join(root, 'folder', 'C.txt')] joins from the left. *)
Definition createTestRepository (root : string) : W string :=
  (on_files (mkdirSync (join root "folder")) ;;
   on_files (writeFileSync (join root "A.txt") "A") ;;
   on_files (writeFileSync (join root "B.txt") "B") ;;
   on_files (writeFileSync (join (join root "folder") "C.txt") "C") ;;
   initRepository root (Some true) (Some true) ;;
   ret root)%fixture.

End WithEnvironment.

End Fixture.

(* ================================================================== *)
(** * Part II, continued: more vocabulary *)
(* ================================================================== *)

Module FixtureSpec.

Import TestHelper Fixture.

(** The runs of git that set a repository up, in order. *)
Definition setup_calls (path : string) : list GitCall :=
  [ {| call_args := ["init"]; call_path := path; call_name := "init";
       call_stdin := None |};
    {| call_args := ["config"; "user.email"; quoted "jon@doe.com"];
       call_path := path; call_name := "config"; call_stdin := None |};
    {| call_args := ["config"; "user.name"; quoted "Jon Doe"];
       call_path := path; call_name := "config"; call_stdin := None |} ].

Definition add_call (path : string) : GitCall :=
  {| call_args := ["add"; "."]; call_path := path; call_name := "add";
     call_stdin := None |}.

Definition commit_call (path : string) : GitCall :=
  {| call_args := ["commit"; "-F"; "-"]; call_path := path;
     call_name := "createCommit"; call_stdin := Some "Initial commit." |}.

(** All the runs [initRepository] asks for when none of them fails. *)
Definition plan (path : string) (add commit : option bool) : list GitCall :=
  setup_calls path
    ++ (if Js.truthy_flag add
        then add_call path
               :: (if Js.truthy_flag commit then [commit_call path] else [])
        else []).

(** A tool that always succeeds and does not touch the files. *)
Definition quiet_tool (w : World) (c : GitCall) : Z * FS := (0%Z, files w).

(** A tool that fails as soon as it is asked to stage. *)
Definition staging_fails (w : World) (c : GitCall) : Z * FS :=
  (if String.eqb (call_name c) "add" then 1%Z else 0%Z, files w).

(** The files [createTestRepository] writes under [root]. *)
Definition seeded (join : string -> string -> string) (root : string)
    (fs : FS) : FS :=
  <[join (join root "folder") "C.txt" := File "C"]>
    (<[join root "B.txt" := File "B"]>
       (<[join root "A.txt" := File "A"]>
          (<[join root "folder" := Directory]> fs))).

(** Exchanging the two ends of a renaming. *)
Definition swap (f : FileToRename) : FileToRename :=
  {| oldPath := newPath f; newPath := oldPath f |}.

End FixtureSpec.

(* ================================================================== *)
(** * Part III: the properties *)
(* ================================================================== *)

(** ** Progress reporting of [checkoutBranch] *)

Section CheckoutBranchFacts.

Import Progress Git Checkout Spec.

Lemma trace_bind {A B : Type} (m : M A) (k : A -> M B) :
  trace (bind m k) = trace m ++ trace (k (fst m)).
Proof.
  unfold trace, bind. destruct m as [a w1]. simpl.
  destruct (k a) as [b w2]. reflexivity.
Qed.

Lemma for_each_app {A : Type} (xs ys : list A) (body : A -> M unit) :
  trace (for_each (xs ++ ys) body)
  = trace (for_each xs body) ++ trace (for_each ys body).
Proof.
  induction xs as [|x xs IH]; simpl.
  - reflexivity.
  - rewrite !trace_bind, IH, app_assoc. reflexivity.
Qed.

(** The adapter passes on exactly the records of the stream, in order. *)
Lemma pump_records (P : Parser) (onProgress : ProgressRecord -> M unit)
    (chunks : list string) (st : state P) :
  trace (pump P st chunks onProgress)
  = trace (for_each (records_from P st chunks) onProgress).
Proof.
  revert st. induction chunks as [|c cs IH]; intros st; simpl.
  - reflexivity.
  - destruct (feed P st c) as [st' rs].
    rewrite trace_bind, for_each_app, IH. reflexivity.
Qed.

(** The function [checkoutBranch] hands to the adapter, with the caller's
    callback being the observer. *)
Lemma handler_events (name : string) (rs : list ProgressRecord) :
  trace (for_each rs
           (fun progress =>
              if String.eqb (Progress.kind progress) "progress" then
                match progress with
                | Progress text percent =>
                    observer
                      {| kind := "checkout";
                         title := "Checking out branch " +:+ name;
                         description := Some text;
                         value := percent;
                         targetBranch := Some name |}
                | Unknown => ret tt
                end
              else ret tt))
  = map Notified (stream_events name rs).
Proof.
  induction rs as [|r rs IH]; simpl.
  - reflexivity.
  - rewrite trace_bind, IH. destruct r; reflexivity.
Qed.

(** Everything an observed [checkoutBranch] does, in order. *)
Lemma checkoutBranch_observed (P : Parser) (process : ChildProcess)
    (repositoryPath name : string) (options : option IGitExecutionOptions) :
  trace (checkoutBranch P process repositoryPath name options (Some observer))
  = Notified (start_event name)
      :: Spawned ["checkout"; "--progress"; name; "--"]
           repositoryPath "checkoutBranch"
      :: map Notified (stream_events name (records_of P (stderr process))).
Proof.
  unfold checkoutBranch. rewrite trace_bind. simpl.
  unfold git. rewrite trace_bind. simpl.
  unfold progressProcessCallback. rewrite pump_records.
  unfold records_of. rewrite handler_events. reflexivity.
Qed.

Lemma notifications_map (es : list ICheckoutProgress) :
  notifications (map Notified es) = es.
Proof. induction es as [|e es IH]; simpl; congruence. Qed.

Lemma spawns_map (es : list ICheckoutProgress) :
  spawns (map Notified es) = [].
Proof. induction es as [|e es IH]; simpl; congruence. Qed.

Lemma stream_events_derive (name : string) (rs : list ProgressRecord) :
  Forall2 (derives name) (List.filter is_progress rs) (stream_events name rs).
Proof.
  induction rs as [|r rs IH]; simpl.
  - constructor.
  - destruct r; simpl.
    + constructor; [constructor | exact IH].
    + exact IH.
Qed.

Lemma checkoutBranch_notifications (P : Parser) (process : ChildProcess)
    (repositoryPath name : string) (options : option IGitExecutionOptions) :
  notifications
    (trace (checkoutBranch P process repositoryPath name options
              (Some observer)))
  = start_event name :: stream_events name (records_of P (stderr process)).
Proof.
  rewrite checkoutBranch_observed. cbn [notifications].
  rewrite notifications_map. reflexivity.
Qed.

Lemma stream_events_length (name : string) (rs : list ProgressRecord) :
  length (stream_events name rs) = length (List.filter is_progress rs).
Proof.
  induction rs as [|r rs IH]; simpl.
  - reflexivity.
  - destruct r; simpl; congruence.
Qed.

Lemma stream_events_shape (name : string) (rs : list ProgressRecord) :
  Forall (stream_event_shape name) (stream_events name rs).
Proof.
  induction rs as [|r rs IH]; simpl.
  - constructor.
  - destruct r as [text percent|]; [|exact IH].
    constructor; [|exact IH].
    unfold stream_event_shape; simpl. repeat split.
Qed.

Lemma stream_events_report (name : string) (rs : list ProgressRecord) :
  Forall2 reports (List.filter is_progress rs) (stream_events name rs).
Proof.
  induction rs as [|r rs IH]; simpl.
  - constructor.
  - destruct r as [text percent|]; simpl; [|exact IH].
    constructor; [split; reflexivity | exact IH].
Qed.

End CheckoutBranchFacts.

(** ** The progress parser: lines *)

Section ParserLineFacts.

#[local] Arguments String.append !s1 s2 : simpl nomatch.

Import Progress CheckoutParser.

Lemma append_assoc (a b c : string) : (a +:+ b) +:+ c = a +:+ (b +:+ c).
Proof. induction a as [|x a IH]; simpl; congruence. Qed.

Lemma append_empty_r (a : string) : a +:+ "" = a.
Proof. induction a as [|x a IH]; simpl; congruence. Qed.

Lemma read_digits_stop (s : string) :
  stops_digits s -> read_digits s = (Decimal.Nil, s).
Proof.
  destruct s as [|c s]; simpl; [reflexivity|].
  intros ->. reflexivity.
Qed.

Lemma read_digits_printed (u : Decimal.uint) (rest : string) :
  stops_digits rest ->
  read_digits (NilEmpty.string_of_uint u +:+ rest) = (u, rest).
Proof.
  intros Hrest.
  induction u as [|u IH|u IH|u IH|u IH|u IH|u IH|u IH|u IH|u IH|u IH];
    simpl; [apply read_digits_stop; exact Hrest | ..];
    rewrite IH; reflexivity.
Qed.

Lemma to_uint_not_nil (n : N) : N.to_uint n <> Decimal.Nil.
Proof.
  destruct n as [|p]; simpl.
  - discriminate.
  - apply DecimalPos.Unsigned.to_uint_nonnil.
Qed.

Lemma read_number_decimal (n : N) (rest : string) :
  stops_digits rest ->
  read_number (decimal n +:+ rest) = Some (n, rest).
Proof.
  intros Hrest. unfold read_number, decimal.
  rewrite read_digits_printed by exact Hrest.
  pose proof (to_uint_not_nil n) as Hnil.
  pose proof (DecimalN.Unsigned.of_to n) as Hback.
  destruct (N.to_uint n); [contradiction | ..]; rewrite Hback; reflexivity.
Qed.

Lemma skip_spaces_decimal (n : N) (rest : string) :
  skip_spaces (decimal n +:+ rest) = decimal n +:+ rest.
Proof.
  unfold decimal. pose proof (to_uint_not_nil n) as Hnil.
  destruct (N.to_uint n); [contradiction | ..]; reflexivity.
Qed.

Lemma has_colon_append (a b : string) :
  has_colon (a +:+ b) = has_colon a || has_colon b.
Proof.
  induction a as [|c a IH]; simpl; [reflexivity|].
  rewrite IH, orb_assoc. reflexivity.
Qed.

Lemma has_colon_decimal (n : N) : has_colon (decimal n) = false.
Proof.
  unfold decimal.
  induction (N.to_uint n) as [|u IH|u IH|u IH|u IH|u IH|u IH|u IH|u IH|u IH|u IH];
    simpl; [reflexivity | ..]; exact IH.
Qed.

Lemma split_label_none (s : string) :
  has_colon s = false -> split_label s = None.
Proof.
  induction s as [|c s IH]; simpl; [reflexivity|].
  intros H. apply orb_false_elim in H as [Hc Hs].
  rewrite (IH Hs), Hc. reflexivity.
Qed.

(** The label ends at the last colon: a body without colons is found
    whole, whatever the label is. *)
Lemma split_label_last (l body : string) :
  has_colon body = false ->
  split_label (l +:+ String ":"%char body) = Some (l, body).
Proof.
  intros Hbody. induction l as [|c l IH]; simpl.
  - rewrite (split_label_none _ Hbody). reflexivity.
  - rewrite IH. reflexivity.
Qed.

Lemma read_pair_printed (count total : N) :
  read_pair
    (String "("%char (decimal count +:+ String "/"%char (decimal total +:+ ")")))
  = Some (count, total).
Proof.
  unfold read_pair. simpl.
  rewrite read_number_decimal by reflexivity. simpl.
  rewrite read_number_decimal by reflexivity. reflexivity.
Qed.

(** A line printed in the usual form is matched, and its parts read back
    as they were printed. *)
Lemma match_line_render (l : string) (p count total : N) :
  l <> "" ->
  match_line (render l p count total)
  = Some {| label := l; token := Some p; pair := Some (count, total) |}.
Proof.
  intros Hl. unfold match_line, render. simpl.
  rewrite split_label_last.
  2:{ repeat first [ rewrite has_colon_append
                   | rewrite has_colon_decimal
                   | progress simpl ].
      reflexivity. }
  destruct l as [|c l]; [contradiction|].
  cbn [skip_spaces]. rewrite skip_spaces_decimal. unfold read_body.
  rewrite read_number_decimal by reflexivity.
  cbn [expect Ascii.eqb Bool.eqb skip_spaces].
  rewrite read_pair_printed. reflexivity.
Qed.

Lemma parse_line_matched (line : string) (m : Match) :
  match_line line = Some m ->
  parse_line line = Some (Progress line (percent_of m)).
Proof. unfold parse_line. intros ->. reflexivity. Qed.

End ParserLineFacts.

(** ** The progress parser: chunks *)

Section ParserChunkFacts.

#[local] Arguments String.append !s1 s2 : simpl nomatch.

Import Progress CheckoutParser.

(** Splitting into lines goes through a cut anywhere in the text: the
    lines of the first piece are found, and its incomplete rest is carried
    over to the front of the second piece. *)
Lemma split_lines_app (x y : string) :
  split_lines (x +:+ y)
  = let '(l1, r1) := split_lines x in
    let '(l2, r2) := split_lines (r1 +:+ y) in
    (l1 ++ l2, r2).
Proof.
  induction x as [|c x IH]; simpl.
  - destruct (split_lines y) as [l2 r2]. reflexivity.
  - rewrite IH. destruct (split_lines x) as [l1 r1].
    destruct (Ascii.eqb c newline) eqn:Hc.
    + destruct (split_lines (r1 +:+ y)) as [l2 r2]. reflexivity.
    + destruct l1 as [|l l1]; simpl.
      * rewrite Hc. destruct (split_lines (r1 +:+ y)) as [[|l2 ls2] r2];
          reflexivity.
      * destruct (split_lines (r1 +:+ y)) as [l2 r2]. reflexivity.
Qed.

Lemma split_lines_whole (s : string) :
  has_newline s = false -> split_lines s = ([], s).
Proof.
  induction s as [|c s IH]; simpl; [reflexivity|].
  intros H. apply orb_false_elim in H as [Hc Hs].
  rewrite (IH Hs), Hc. reflexivity.
Qed.

Lemma split_lines_rest (s : string) :
  has_newline (snd (split_lines s)) = false.
Proof.
  induction s as [|c s IH]; simpl; [reflexivity|].
  destruct (split_lines s) as [ls r]. simpl in IH.
  destruct (Ascii.eqb c newline) eqn:Hc; simpl; [exact IH|].
  destruct ls as [|l ls]; simpl; [|exact IH].
  rewrite Hc. exact IH.
Qed.

Lemma split_lines_unlines (s : string) :
  unlines (fst (split_lines s)) (snd (split_lines s)) = s.
Proof.
  induction s as [|c s IH]; simpl; [reflexivity|].
  destruct (split_lines s) as [ls r]. simpl in IH.
  destruct (Ascii.eqb_spec c newline) as [->|Hc]; simpl.
  - rewrite IH. reflexivity.
  - destruct ls as [|l ls]; simpl in *; rewrite IH; reflexivity.
Qed.

Lemma split_at_append (n : nat) (s : string) :
  fst (split_at n s) +:+ snd (split_at n s) = s.
Proof.
  revert s. induction n as [|n IH]; intros s; simpl; [reflexivity|].
  destruct s as [|c s]; simpl; [reflexivity|].
  specialize (IH s). destruct (split_at n s) as [a b]. simpl in *.
  rewrite IH. reflexivity.
Qed.

Lemma feed_app (buffer a b : string) :
  feed buffer (a +:+ b)
  = let '(buffer1, r1) := feed buffer a in
    let '(buffer2, r2) := feed buffer1 b in
    (buffer2, r1 ++ r2).
Proof.
  unfold feed. rewrite <- append_assoc, split_lines_app.
  destruct (split_lines (buffer +:+ a)) as [l1 r1].
  destruct (split_lines (r1 +:+ b)) as [l2 r2].
  rewrite omap_app. reflexivity.
Qed.

Lemma flush_omap (buffer : string) :
  flush buffer = omap parse_line [buffer].
Proof. unfold flush. simpl. destruct (parse_line buffer); reflexivity. Qed.

(** What the parser yields over a stream depends on the text of the
    stream only, not on how the text was cut into chunks. *)
Lemma records_from_text (chunks : list string) (buffer : string) :
  has_newline buffer = false ->
  records_from CheckoutProgressParser buffer chunks
  = omap parse_line (lines_of (buffer +:+ text_of chunks)).
Proof.
  revert buffer. induction chunks as [|c cs IH]; intros buffer Hbuf; simpl.
  - rewrite append_empty_r. unfold lines_of.
    rewrite (split_lines_whole _ Hbuf). apply flush_omap.
  - unfold feed. unfold lines_of.
    rewrite <- append_assoc, (split_lines_app (buffer +:+ c) (text_of cs)).
    pose proof (split_lines_rest (buffer +:+ c)) as Hrest.
    destruct (split_lines (buffer +:+ c)) as [l1 r1]. simpl in Hrest.
    rewrite (IH r1 Hrest). unfold lines_of.
    destruct (split_lines (r1 +:+ text_of cs)) as [l2 r2].
    rewrite <- app_assoc, !omap_app. reflexivity.
Qed.

Lemma records_of_text (chunks : list string) :
  records_of CheckoutProgressParser chunks
  = omap parse_line (lines_of (text_of chunks)).
Proof. apply (records_from_text chunks ""). reflexivity. Qed.

Lemma omap_parse_none (ls : list string) :
  (forall line, In line ls -> match_line line = None) ->
  omap parse_line ls = [].
Proof.
  induction ls as [|l ls IH]; intros H; simpl; [reflexivity|].
  unfold parse_line at 1. rewrite (H l) by (left; reflexivity).
  apply IH. intros line Hin. apply H. right. exact Hin.
Qed.

End ParserChunkFacts.

(** ** Progress reporting of [checkoutBranch]: the claims *)

Section CheckoutBranchClaims.

Import Progress Git Checkout Spec CheckoutParser.

(** C1. With a progress callback supplied, the first thing a call of
    [checkoutBranch] does is to invoke the callback with the synthetic
    start event, whose value is 0 and which has no description; git is
    spawned only after that, and every event derived from the output
    stream of the process is delivered later still.  So the first
    invocation of the callback is the synthetic one, and no event of the
    stream comes before it. *)
Theorem C1_start_event_comes_first (P : Parser) (process : ChildProcess)
    (repositoryPath name : string) (options : option IGitExecutionOptions) :
  let run :=
    trace (checkoutBranch P process repositoryPath name options
             (Some observer)) in
  let from_stream := stream_events name (records_of P (stderr process)) in
  run = Notified (start_event name)
          :: Spawned ["checkout"; "--progress"; name; "--"]
               repositoryPath "checkoutBranch"
          :: map Notified from_stream
  /\ hd_error (notifications run) = Some (start_event name)
  /\ value (start_event name) = 0%Q
  /\ description (start_event name) = None
  /\ ~ In "description" (fields (start_event name))
  /\ Forall2 (derives name)
       (List.filter is_progress (records_of P (stderr process))) from_stream.
Proof.
  intros run from_stream.
  assert (Hrun : run = Notified (start_event name)
                         :: Spawned ["checkout"; "--progress"; name; "--"]
                              repositoryPath "checkoutBranch"
                         :: map Notified from_stream)
    by apply checkoutBranch_observed.
  split; [exact Hrun|].
  split; [rewrite Hrun; reflexivity|].
  split; [reflexivity|].
  split; [reflexivity|].
  split.
  - simpl. intros [H|[H|[H|[H|[]]]]]; discriminate H.
  - apply stream_events_derive.
Qed.

(** C2. Whatever records the parser produces over the stream, the callback
    is invoked once for the synthetic start event and then exactly once
    per record of kind 'progress', in the order the records were received;
    records of kind 'unknown' cause no invocation.  For the two lines
    "Checking out files: 10% (1/10)" and "Checking out files: 100% (10/10)"
    the callback is invoked three times, with the values 0, 0.1 and 1.0 in
    that order. *)
Theorem C2_one_invocation_per_progress_record :
  (forall (P : Parser) (process : ChildProcess) (repositoryPath name : string)
          (options : option IGitExecutionOptions),
      let records := records_of P (stderr process) in
      let calls :=
        notifications
          (trace (checkoutBranch P process repositoryPath name options
                    (Some observer))) in
      exists from_stream,
        calls = start_event name :: from_stream
        /\ Forall2 (derives name) (List.filter is_progress records) from_stream
        /\ length calls = S (length (List.filter is_progress records)))
  /\ (forall (chunks : list string) (repositoryPath name : string)
             (options : option IGitExecutionOptions),
        text_of chunks
        = "Checking out files: 10% (1/10)" +:+ String newline ""
            +:+ "Checking out files: 100% (10/10)" +:+ String newline "" ->
        let calls :=
          notifications
            (trace (checkoutBranch CheckoutProgressParser
                      {| stderr := chunks |} repositoryPath name options
                      (Some observer))) in
        length calls = 3
        /\ Forall2 Qeq (map value calls) [0; 0.1; 1.0]%Q).
Proof.
  split.
  - intros P process repositoryPath name options records calls.
    exists (stream_events name records).
    assert (Hcalls : calls = start_event name :: stream_events name records)
      by apply checkoutBranch_notifications.
    split; [exact Hcalls|].
    split; [apply stream_events_derive|].
    rewrite Hcalls. simpl. f_equal. apply stream_events_length.
  - intros chunks repositoryPath name options Htext calls.
    assert (Hcalls : calls = start_event name
              :: stream_events name
                   (records_of CheckoutProgressParser chunks))
      by apply checkoutBranch_notifications.
    rewrite Hcalls, records_of_text, Htext. vm_compute.
    split; [reflexivity|].
    repeat constructor.
Qed.

(** C2 on the two lines delivered as one chunk each, and cut elsewhere. *)
Lemma C2_two_lines_witness :
  (let calls :=
     notifications
       (trace (checkoutBranch CheckoutProgressParser
                 {| stderr :=
                      ["Checking out files: 10% (1/10)" +:+ String newline "";
                       "Checking out files: 100% (10/10)"
                         +:+ String newline ""] |}
                 "/repo" "main" None (Some observer))) in
   length calls = 3
   /\ Forall2 Qeq (map value calls) [0; 0.1; 1.0]%Q)
  /\ (let calls :=
        notifications
          (trace (checkoutBranch CheckoutProgressParser
                    {| stderr :=
                         ["Checking out fi";
                          "les: 10% (1/10)" +:+ String newline "Checking out";
                          " files: 100% (10/10)" +:+ String newline ""] |}
                    "/repo" "main" None (Some observer))) in
      length calls = 3
      /\ Forall2 Qeq (map value calls) [0; 0.1; 1.0]%Q).
Proof.
  split.
  - apply (proj2 C2_one_invocation_per_progress_record
             ["Checking out files: 10% (1/10)" +:+ String newline "";
              "Checking out files: 100% (10/10)" +:+ String newline ""]
             "/repo" "main" None).
    reflexivity.
  - apply (proj2 C2_one_invocation_per_progress_record
             ["Checking out fi";
              "les: 10% (1/10)" +:+ String newline "Checking out";
              " files: 100% (10/10)" +:+ String newline ""]
             "/repo" "main" None).
    reflexivity.
Defined.

(** C7, as stated, fails twice.  The first event a checkout delivers is the
    start event, which carries no description; and the value of an event
    of the stream is the percent of its record as parsed, which nothing
    bounds: the line "Checking out files: 100% (5/2)" is delivered as an
    event with all five fields and the value 5/2. *)
Lemma C7_not_every_event_is_complete :
  ~ Forall (complete_event "main")
      (notifications
         (trace (checkoutBranch CheckoutProgressParser {| stderr := [] |}
                   "/repo" "main" None (Some observer))))
  /\ (exists e,
        nth_error
          (notifications
             (trace (checkoutBranch CheckoutProgressParser
                       {| stderr := ["Checking out files: 100% (5/2)"
                                       +:+ String newline ""] |}
                       "/repo" "main" None (Some observer)))) 1
        = Some e
        /\ fields e = full_field_set
        /\ (value e == 5 # 2)%Q
        /\ ~ in_unit_interval (value e)).
Proof.
  split.
  - intros H. apply Forall_inv in H. destruct H as [Hfields _].
    vm_compute in Hfields. discriminate Hfields.
  - rewrite checkoutBranch_notifications. eexists.
    split; [vm_compute; reflexivity|].
    split; [reflexivity|].
    split; [reflexivity|].
    intros [_ Hle]. vm_compute in Hle. apply Hle. reflexivity.
Qed.

(** C7, amended.  Every event a checkout of [name] delivers after the
    start event derives from one parsed progress record and has exactly
    the fields kind, title, description, value and targetBranch: kind is
    'checkout', title is 'Checking out branch <name>', targetBranch is the
    name passed in, description is the text of the record and value is the
    percent of the record as the parser gave it, which [checkoutBranch]
    passes on without bounding it.  The start event, delivered first, has
    the fields kind, title, value and targetBranch with the same kind,
    title and targetBranch, the value 0 and no description. *)
Theorem C7_event_fields (P : Parser) (process : ChildProcess)
    (repositoryPath name : string) (options : option IGitExecutionOptions) :
  exists from_stream,
    notifications
      (trace (checkoutBranch P process repositoryPath name options
                (Some observer)))
    = start_event name :: from_stream
    /\ fields (start_event name) = ["kind"; "title"; "value"; "targetBranch"]
    /\ kind (start_event name) = "checkout"
    /\ title (start_event name) = "Checking out branch " +:+ name
    /\ targetBranch (start_event name) = Some name
    /\ value (start_event name) = 0%Q
    /\ Forall2 (derives name)
         (List.filter is_progress (records_of P (stderr process))) from_stream
    /\ Forall (stream_event_shape name) from_stream
    /\ Forall2 reports
         (List.filter is_progress (records_of P (stderr process))) from_stream.
Proof.
  exists (stream_events name (records_of P (stderr process))).
  rewrite checkoutBranch_notifications.
  repeat (split; [reflexivity|]).
  split; [apply stream_events_derive|].
  split; [apply stream_events_shape | apply stream_events_report].
Qed.

(** C8. The arguments [checkoutBranch] passes to git are exactly
    'checkout', '--progress', the branch name and '--' when a progress
    callback is supplied, and exactly 'checkout', the branch name and '--'
    when none is: the code puts in the '--progress' flag if and only if a
    callback was given.  Git is run once, in the repository, as the
    operation 'checkoutBranch'. *)
Theorem C8_progress_flag (P : Parser) (process : ChildProcess)
    (repositoryPath name : string) (options : option IGitExecutionOptions)
    (progressCallback : option ProgressCallback) :
  let given := Js.truthy_opt progressCallback in
  let args :=
    ["checkout"] ++ (if given then ["--progress"] else []) ++ [name; "--"] in
  (exists before after,
      trace (checkoutBranch P process repositoryPath name options
               progressCallback)
      = before ++ Spawned args repositoryPath "checkoutBranch" :: after
      /\ before = match progressCallback with
                  | Some callback => trace (callback (start_event name))
                  | None => []
                  end)
  /\ spawns (trace (checkoutBranch P process repositoryPath name options
                      (Some observer)))
     = [(["checkout"; "--progress"; name; "--"], repositoryPath,
         "checkoutBranch")]
  /\ spawns (trace (checkoutBranch P process repositoryPath name options None))
     = [(["checkout"; name; "--"], repositoryPath, "checkoutBranch")].
Proof.
  intros given args. split; [|split].
  - destruct progressCallback as [callback|].
    + unfold checkoutBranch, git, bind, trace, start_event.
      destruct (callback _) as [u w0]. cbn.
      destruct (progressProcessCallback _ _ _) as [u' w1]. cbn.
      exists w0, w1. rewrite app_nil_r. split; reflexivity.
    + exists [], []. split; reflexivity.
  - rewrite checkoutBranch_observed. simpl. rewrite spawns_map. reflexivity.
  - reflexivity.
Qed.

End CheckoutBranchClaims.

(** ** Argument building of [checkout] and [checkoutPaths] *)

Section CheckoutClaims.

Import Progress Git Checkout Spec.

Variable relative : string -> string -> string.
Variable process : ChildProcess.

Lemma truthy_string_nonempty (s : string) :
  Js.truthy_string s = true <-> s <> "".
Proof.
  unfold Js.truthy_string. destruct (String.eqb_spec s ""); simpl.
  - split; [discriminate | contradiction].
  - split; [intros _; assumption | reflexivity].
Qed.

(** C9. [checkout] runs git with 'checkout', then the commit SHA if and
    only if it is a non-empty string, then '-m' and '-f' as asked for,
    then '--', then every supplied path made relative to the repository
    path, in order; [checkoutPaths] is [checkout] with the literal
    tree-ish 'HEAD' and neither flag, so it runs 'checkout HEAD --' and
    the relative paths. *)
Theorem C9_checkout_arguments (repositoryPath : string) (paths : list string)
    (commitSHA : string) (merge force : option bool)
    (options : option IGitExecutionOptions) :
  let args :=
    ["checkout"]
      ++ (if Js.truthy_string commitSHA then [commitSHA] else [])
      ++ (if Js.truthy_flag merge then ["-m"] else [])
      ++ (if Js.truthy_flag force then ["-f"] else [])
      ++ ["--"]
      ++ map (relative repositoryPath) paths in
  (exists after,
      trace (checkout relative process repositoryPath paths commitSHA
               merge force options)
      = Spawned args repositoryPath "checkoutPaths" :: after)
  /\ (nth_error args 1 = Some commitSHA <-> commitSHA <> "")
  /\ checkoutPaths relative process repositoryPath paths options
     = checkout relative process repositoryPath paths "HEAD"
         (Some false) (Some false) options
  /\ (exists after,
        trace (checkoutPaths relative process repositoryPath paths options)
        = Spawned ("checkout" :: "HEAD" :: "--"
                     :: map (relative repositoryPath) paths)
            repositoryPath "checkoutPaths" :: after).
Proof.
  intros args. split; [|split; [|split]].
  - unfold checkout, git. rewrite trace_bind. simpl.
    eexists. f_equal. f_equal. unfold args, Js.push_all, Js.push.
    destruct (Js.truthy_string commitSHA), (Js.truthy_flag merge),
      (Js.truthy_flag force); reflexivity.
  - unfold args. rewrite <- truthy_string_nonempty.
    destruct (Js.truthy_string commitSHA) eqn:E.
    + simpl. split; reflexivity.
    + assert (Hempty : commitSHA = "").
      { destruct (String.eqb_spec commitSHA "") as [H|H]; [exact H|].
        apply truthy_string_nonempty in H. congruence. }
      subst commitSHA.
      destruct (Js.truthy_flag merge), (Js.truthy_flag force); simpl;
        split; discriminate.
  - reflexivity.
  - unfold checkoutPaths, checkout, git. rewrite trace_bind. simpl.
    eexists. reflexivity.
Qed.

End CheckoutClaims.

(** ** The progress parser: the claims *)

Section ParserClaims.

#[local] Arguments String.append !s1 s2 : simpl nomatch.

Import Progress Git Checkout Spec CheckoutParser.

(** C3. A line that matches the progress pattern with a total of 0 gives a
    record whose percent is 0: the parser is a total function, so nothing
    is raised, and the division is never attempted.  This holds for every
    line the parser matches, and every line printed in the usual form
    "label: p% (count/0)" is one. *)
Theorem C3_zero_total_is_zero_percent :
  (forall (line : string) (m : Match) (count : N),
      match_line line = Some m ->
      pair m = Some (count, 0%N) ->
      parse_line line = Some (Progress line 0))
  /\ (forall (l : string) (p count : N),
        l <> "" ->
        parse_line (render l p count 0)
        = Some (Progress (render l p count 0) 0)).
Proof.
  assert (Hmatched : forall line m count,
             match_line line = Some m ->
             pair m = Some (count, 0%N) ->
             parse_line line = Some (Progress line 0)).
  { intros line m count Hm Hpair.
    rewrite (parse_line_matched line m Hm).
    unfold percent_of. rewrite Hpair. reflexivity. }
  split; [exact Hmatched|].
  intros l p count Hl.
  apply (Hmatched _ _ count (match_line_render l p count 0 Hl)).
  reflexivity.
Qed.

(** C3 on the line "Checking out files: 0% (0/0)". *)
Lemma C3_zero_total_witness :
  parse_line "Checking out files: 0% (0/0)"
  = Some (Progress "Checking out files: 0% (0/0)" 0)
  /\ parse_line (render "Checking out files" 0 0 0)
     = Some (Progress (render "Checking out files" 0 0 0) 0).
Proof.
  split.
  - apply (proj1 C3_zero_total_is_zero_percent
             "Checking out files: 0% (0/0)"
             {| label := "Checking out files"; token := Some 0%N;
                pair := Some (0%N, 0%N) |} 0%N); reflexivity.
  - apply (proj2 C3_zero_total_is_zero_percent "Checking out files" 0%N 0%N).
    discriminate.
Defined.

(** C4. Chunk-splitting invariance.  Cut a text at any offset: feeding the
    two pieces in order, in two calls, gives the same records and leaves
    the same buffer as feeding the text in one call, whatever was buffered
    before; over a whole stream the records depend on the text only, not
    on where it was cut.  After each call the buffer holds the incomplete
    trailing line of what was received so far, and the records of the call
    are those of the lines it completed. *)
Theorem C4_chunk_splitting_invariance (buffer text : string) (n : nat) :
  let a := fst (split_at n text) in
  let b := snd (split_at n text) in
  a +:+ b = text
  /\ (let '(buffer1, r1) := feed buffer a in
      let '(buffer2, r2) := feed buffer1 b in
      (buffer2, r1 ++ r2)) = feed buffer text
  /\ records_of CheckoutProgressParser [a; b]
     = records_of CheckoutProgressParser [text]
  /\ (forall chunks : list string,
        records_of CheckoutProgressParser chunks
        = records_of CheckoutProgressParser [text_of chunks])
  /\ has_newline (fst (feed buffer a)) = false
  /\ (exists completed : list string,
        buffer +:+ a = unlines completed (fst (feed buffer a))
        /\ snd (feed buffer a) = omap parse_line completed).
Proof.
  intros a b.
  assert (Hcut : a +:+ b = text) by apply split_at_append.
  assert (Hany : forall chunks : list string,
             records_of CheckoutProgressParser chunks
             = records_of CheckoutProgressParser [text_of chunks]).
  { intros chunks. rewrite !records_of_text. simpl.
    rewrite append_empty_r. reflexivity. }
  split; [exact Hcut|].
  split; [rewrite <- Hcut; symmetry; apply feed_app|].
  split.
  { rewrite (Hany [a; b]). simpl. rewrite append_empty_r, Hcut.
    reflexivity. }
  split; [exact Hany|].
  unfold feed.
  pose proof (split_lines_rest (buffer +:+ a)) as Hrest.
  pose proof (split_lines_unlines (buffer +:+ a)) as Hun.
  destruct (split_lines (buffer +:+ a)) as [ls r]. simpl in *.
  split; [exact Hrest|].
  exists ls. split; [symmetry; exact Hun | reflexivity].
Qed.

(** The line of the spec, whole and cut after its seventh character. *)
Example chunked_sample :
  records_of CheckoutProgressParser
    ["Checking out files: 50% (5/10)" +:+ String newline ""]
  = [Progress "Checking out files: 50% (5/10)" (number 5 / number 10)]
  /\ records_of CheckoutProgressParser
       ["Checkin"; "g out files: 50% (5/10)" +:+ String newline ""]
     = [Progress "Checking out files: 50% (5/10)" (number 5 / number 10)]
  /\ feed "" "Checkin" = ("Checkin", []).
Proof. repeat split; reflexivity. Qed.

(** C5. A line that matches with the pair count/total, total above 0,
    gives a record whose percent is count divided by total; every line
    printed in the usual form "label: p% (count/total)" is such a line;
    and "Resolving deltas:  37% (370/1000)" gives the value 0.37. *)
Theorem C5_percent_is_count_over_total :
  (forall (line : string) (m : Match) (count total : N),
      match_line line = Some m ->
      pair m = Some (count, total) ->
      total <> 0%N ->
      parse_line line
      = Some (Progress line (number count / number total)))
  /\ (forall (l : string) (p count total : N),
        l <> "" ->
        total <> 0%N ->
        parse_line (render l p count total)
        = Some (Progress (render l p count total)
                  (number count / number total)))
  /\ (exists q : Q,
        parse_line "Resolving deltas:  37% (370/1000)"
        = Some (Progress "Resolving deltas:  37% (370/1000)" q)
        /\ (q == 0.37)%Q).
Proof.
  assert (Hmatched : forall line m count total,
             match_line line = Some m ->
             pair m = Some (count, total) ->
             total <> 0%N ->
             parse_line line
             = Some (Progress line (number count / number total))).
  { intros line m count total Hm Hpair Htotal.
    rewrite (parse_line_matched line m Hm).
    unfold percent_of. rewrite Hpair.
    destruct (N.eqb_spec total 0) as [H|_]; [contradiction|reflexivity]. }
  split; [exact Hmatched|]. split.
  - intros l p count total Hl Htotal.
    apply (Hmatched _ _ count total (match_line_render l p count total Hl));
      [reflexivity | exact Htotal].
  - eexists. split.
    + apply (Hmatched _ {| label := "Resolving deltas"; token := Some 37%N;
                           pair := Some (370%N, 1000%N) |} 370%N 1000%N);
        [reflexivity | reflexivity | discriminate].
    + reflexivity.
Qed.

(** C5 on the line "Checking out files: 42% (420/1000)" and on a printed
    line. *)
Lemma C5_percent_witness :
  parse_line "Checking out files: 42% (420/1000)"
  = Some (Progress "Checking out files: 42% (420/1000)"
            (number 420 / number 1000))
  /\ parse_line (render "Checking out files" 50 5 10)
     = Some (Progress (render "Checking out files" 50 5 10)
               (number 5 / number 10)).
Proof.
  split.
  - apply (proj1 C5_percent_is_count_over_total
             "Checking out files: 42% (420/1000)"
             {| label := "Checking out files"; token := Some 42%N;
                pair := Some (420%N, 1000%N) |} 420%N 1000%N);
      [reflexivity | reflexivity | discriminate].
  - apply (proj1 (proj2 C5_percent_is_count_over_total)
             "Checking out files" 50%N 5%N 10%N); discriminate.
Defined.

(** C6. A line that does not match the progress pattern gives no record,
    neither when a chunk completes it nor at the final flush, and nothing
    is raised: a stream none of whose lines match yields no record at all,
    and the caller of [checkoutBranch] then sees the start event only.
    The line "Checking out files: oops" is such a line. *)
Theorem C6_unmatched_lines_are_ignored :
  (forall line : string,
      match_line line = None ->
      parse_line line = None /\ flush line = [])
  /\ (forall (chunks : list string) (repositoryPath name : string)
             (options : option IGitExecutionOptions),
        (forall line : string,
            In line (lines_of (text_of chunks)) -> match_line line = None) ->
        records_of CheckoutProgressParser chunks = []
        /\ notifications
             (trace (checkoutBranch CheckoutProgressParser
                       {| stderr := chunks |} repositoryPath name options
                       (Some observer)))
           = [start_event name])
  /\ match_line "Checking out files: oops" = None
  /\ records_of CheckoutProgressParser
       ["Checking out files: oops" +:+ String newline ""] = [].
Proof.
  split; [|split; [|split]].
  - intros line Hm. unfold flush, parse_line. rewrite Hm. split; reflexivity.
  - intros chunks repositoryPath name options Hnone.
    assert (Hrecords : records_of CheckoutProgressParser chunks = []).
    { rewrite records_of_text. apply omap_parse_none. exact Hnone. }
    split; [exact Hrecords|].
    rewrite checkoutBranch_notifications. simpl stderr.
    rewrite Hrecords. reflexivity.
  - reflexivity.
  - reflexivity.
Qed.

(** C6 on a stream of two lines that do not match. *)
Lemma C6_unmatched_witness :
  (parse_line "Checking out files: oops" = None
   /\ flush "Checking out files: oops" = [])
  /\ (records_of CheckoutProgressParser
        ["Checking out files: oops" +:+ String newline ""; "done"] = []
      /\ notifications
           (trace (checkoutBranch CheckoutProgressParser
                     {| stderr := ["Checking out files: oops"
                                     +:+ String newline ""; "done"] |}
                     "/repo" "main" None (Some observer)))
         = [start_event "main"]).
Proof.
  split.
  - apply (proj1 C6_unmatched_lines_are_ignored "Checking out files: oops").
    reflexivity.
  - apply (proj1 (proj2 C6_unmatched_lines_are_ignored)
             ["Checking out files: oops" +:+ String newline ""; "done"]
             "/repo" "main" None).
    intros line Hin. vm_compute in Hin.
    destruct Hin as [<-|[<-|[]]]; reflexivity.
Defined.

End ParserClaims.

(** ** The file helpers of the test suite *)

Section HelperFacts.

Import TestHelper HelperSpec.

(** A loop that gets through a prefix and whose body then throws without
    touching the state throws there, with the state the prefix left. *)
Lemma for_each_throws_after {A : Type} (body : A -> M unit)
    (pre : list A) (x : A) (post : list A) (fs fs1 : FS) (message : string) :
  for_each pre body fs = (Ok tt, fs1) ->
  body x fs1 = (Throw message, fs1) ->
  for_each (pre ++ x :: post) body fs = (Throw message, fs1).
Proof.
  revert fs. induction pre as [|p pre IH]; intros fs Hpre Hx; simpl in *.
  - injection Hpre as <-. unfold bind. rewrite Hx. reflexivity.
  - unfold bind in *. destruct (body p fs) as [[u|e] fs'].
    + apply IH; assumption.
    + discriminate Hpre.
Qed.

(** A loop that succeeds has applied the effect of every entry, in order. *)
Lemma for_each_effects {A : Type} (body : A -> M unit) (step : FS -> A -> FS)
    (xs : list A) :
  (forall x fs u fs', body x fs = (Ok u, fs') -> fs' = step fs x) ->
  forall fs u fs',
    for_each xs body fs = (Ok u, fs') -> fs' = fold_left step xs fs.
Proof.
  intros Hstep. induction xs as [|x xs IH]; intros fs u fs' H; simpl in *.
  - injection H as _ <-. reflexivity.
  - unfold bind in H. destruct (body x fs) as [[v|e] fs1] eqn:Hx.
    + rewrite <- (Hstep _ _ _ _ Hx). exact (IH _ _ _ H).
    + discriminate H.
Qed.

(** Running a body on a file system whose relevant entries are known. *)
Ltac run_body :=
  repeat first
    [ rewrite lookup_insert_eq
    | rewrite lookup_delete_eq
    | rewrite String.eqb_refl
    | match goal with
      | H : ?fs !! ?p = _ |- context [?fs !! ?p] => rewrite H
      end
    | progress cbn ].

(** What the body of each loop does, case by case. *)
Lemma remove_one_cases (f : string) (fs : FS) :
  remove_one f fs
  = match fs !! f with
    | Some (File _) => (Ok tt, delete f fs)
    | Some Directory =>
        (Throw ("Only files can be deleted, directories not: " +:+ f +:+ "."),
         fs)
    | None =>
        (Throw ("Cannot delete file " +:+ f +:+ ", it does not exist."), fs)
    end.
Proof.
  unfold remove_one, bind, existsSync, exists_at, statSync_isFile,
    unlinkSync, throw_if, throw, ret.
  destruct (fs !! f) as [[d|]|] eqn:E; run_body; reflexivity.
Qed.

Lemma add_one_cases (f : FileToModify) (fs : FS) :
  add_one f fs
  = match fs !! mpath f with
    | Some _ => (Throw ("File " +:+ mpath f +:+ ", already exists."), fs)
    | None => (Ok tt, <[mpath f := File (mdata f)]> fs)
    end.
Proof.
  unfold add_one, bind, existsSync, exists_at, writeFileSync, throw_if,
    throw, ret.
  destruct (fs !! mpath f) as [node|] eqn:E; run_body; reflexivity.
Qed.

Lemma modify_one_cases (f : FileToModify) (fs : FS) :
  modify_one f fs
  = match fs !! mpath f with
    | Some (File _) => (Ok tt, <[mpath f := File (mdata f)]> fs)
    | Some Directory =>
        (Throw ("Only files can be modified, directories not: "
                  +:+ mpath f +:+ "."), fs)
    | None =>
        (Throw ("Cannot modify the content of the file " +:+ mpath f
                  +:+ ", it does not exist."), fs)
    end.
Proof.
  unfold modify_one, bind, existsSync, exists_at, statSync_isFile,
    writeFileSync, readFileSync, throw_if, throw, ret.
  destruct (fs !! mpath f) as [[d|]|] eqn:E; run_body; reflexivity.
Qed.

Lemma rename_one_cases (f : FileToRename) (fs : FS) :
  rename_one f fs
  = match fs !! oldPath f with
    | None =>
        (Throw ("Cannot rename the file " +:+ oldPath f
                  +:+ ", it does not exist."), fs)
    | Some node =>
        match fs !! newPath f with
        | Some _ =>
            (Throw ("Cannot rename the file " +:+ oldPath f
                      +:+ ", a file already exists in the destination: "
                      +:+ newPath f +:+ "."), fs)
        | None =>
            match node with
            | File _ =>
                (Ok tt, <[newPath f := node]> (delete (oldPath f) fs))
            | Directory =>
                (Throw ("Only files can be renamed, directories not: "
                          +:+ oldPath f +:+ "."), fs)
            end
        end
    end.
Proof.
  unfold rename_one, bind, existsSync, exists_at, statSync_isFile,
    renameSync, throw_if, throw, ret.
  destruct (fs !! oldPath f) as [node|] eqn:Eold; run_body;
    [|reflexivity].
  destruct (fs !! newPath f) as [other|] eqn:Enew; run_body;
    [reflexivity|].
  destruct node as [d|]; run_body; [|reflexivity].
  assert (Hne : newPath f <> oldPath f) by congruence.
  rewrite lookup_insert_ne by exact Hne.
  run_body. reflexivity.
Qed.

Lemma fold_left_over_map {A B C : Type} (step : C -> B -> C) (g : A -> B)
    (xs : list A) (c : C) :
  fold_left step (map g xs) c = fold_left (fun c x => step c (g x)) xs c.
Proof.
  revert c. induction xs as [|x xs IH]; intros c; simpl; [reflexivity|].
  apply IH.
Qed.

(** The shape all four helpers share: a loop, then the value returned. *)
Lemma loop_then_ret_ok {A B : Type} (body : A -> M unit) (xs : list A)
    (result r : B) (fs fs' : FS) :
  bind (for_each xs body) (fun _ => ret result) fs = (Ok r, fs') ->
  for_each xs body fs = (Ok tt, fs') /\ r = result.
Proof.
  unfold bind, ret. destruct (for_each xs body fs) as [[[]|e] fs1].
  - intros H. injection H as <- <-. split; reflexivity.
  - discriminate.
Qed.

Lemma loop_then_ret_throw {A B : Type} (body : A -> M unit) (xs : list A)
    (result : B) (fs fs' : FS) (message : string) :
  for_each xs body fs = (Throw message, fs') ->
  bind (for_each xs body) (fun _ => ret result) fs = (Throw message, fs').
Proof. unfold bind. intros ->. reflexivity. Qed.

(** The pattern of the four proofs below: the prefix went through, the
    next entry is refused before anything is done for it. *)
Lemma loop_refused {A B E : Type} (body : B -> M unit) (g : A -> B)
    (result : list A -> E) (step : FS -> B -> FS)
    (pre : list A) (x : A) (post : list A) (fs fs1 : FS) (r : E)
    (message : string) :
  (forall y fs0 u fs', body y fs0 = (Ok u, fs') -> fs' = step fs0 y) ->
  bind (for_each (map g pre) body) (fun _ => ret (result pre)) fs
  = (Ok r, fs1) ->
  body (g x) fs1 = (Throw message, fs1) ->
  fs1 = fold_left (fun m y => step m (g y)) pre fs
  /\ bind (for_each (map g (pre ++ x :: post)) body)
       (fun _ => ret (result (pre ++ x :: post))) fs
     = (Throw message, fs1).
Proof.
  intros Hstep Hpre Hx. apply loop_then_ret_ok in Hpre as [Hloop _].
  split.
  - rewrite <- fold_left_over_map.
    exact (for_each_effects body step (map g pre) Hstep _ _ _ Hloop).
  - apply loop_then_ret_throw. rewrite map_app. simpl.
    apply for_each_throws_after; assumption.
Qed.

Lemma falsy_string_empty (d : string) :
  (if Js.truthy_string d then d else "") = d.
Proof.
  unfold Js.truthy_string. destruct (String.eqb_spec d ""); simpl; congruence.
Qed.

(** Deleting only: what a successful run of the loop of [remove] leaves. *)
Lemma remove_loop_ok (ps : list string) :
  forall (fs fs' : FS) (u : unit),
    for_each ps remove_one fs = (Ok u, fs') ->
    Forall (fun p => is_file fs p = true /\ fs' !! p = None) ps
    /\ (forall q node, fs' !! q = Some node -> fs !! q = Some node).
Proof.
  induction ps as [|p ps IH]; intros fs fs' u H; simpl in H.
  - injection H as _ <-. split; [constructor | auto].
  - unfold bind in H. rewrite remove_one_cases in H.
    destruct (fs !! p) as [[d|]|] eqn:E; try discriminate H.
    apply IH in H as [Hall Hsub].
    assert (Hsub' : forall q node, fs' !! q = Some node -> fs !! q = Some node).
    { intros q node Hq. apply Hsub in Hq.
      apply lookup_delete_Some in Hq as [_ Hq]. exact Hq. }
    split; [|exact Hsub'].
    constructor.
    + split; [unfold is_file; rewrite E; reflexivity|].
      destruct (fs' !! p) as [node|] eqn:E'; [|reflexivity].
      apply Hsub in E'. rewrite lookup_delete_eq in E'. discriminate E'.
    + eapply List.Forall_impl; [|exact Hall].
      intros q [Hfile Hgone]. split; [|exact Hgone].
      unfold is_file in *.
      destruct (delete p fs !! q) as [node|] eqn:Eq; [|discriminate Hfile].
      apply lookup_delete_Some in Eq as [_ Eq]. rewrite Eq. exact Hfile.
Qed.

End HelperFacts.

Section HelperClaims.

Import TestHelper HelperSpec.

Variable join : string -> string -> string.

Lemma fold_left_pointwise {A C : Type} (f g : C -> A -> C) (xs : list A)
    (c : C) :
  (forall c x, f c x = g c x) -> fold_left f xs c = fold_left g xs c.
Proof.
  intros Hfg. revert c. induction xs as [|x xs IH]; intros c; simpl.
  - reflexivity.
  - rewrite Hfg. apply IH.
Qed.

Lemma remove_not_atomic (repositoryPath : string) (pre : list string)
    (x : string) (post : list string) (fs fs1 : FS) (r : list string) :
  remove join repositoryPath (inr pre) fs = (Ok r, fs1) ->
  remove_refused join repositoryPath fs1 x ->
  fs1 = fold_left (removed join repositoryPath) pre fs
  /\ exists message,
      remove join repositoryPath (inr (pre ++ x :: post)) fs
      = (Throw message, fs1).
Proof.
  unfold remove, remove_refused, as_array. intros Hpre Hx.
  pose proof (remove_one_cases (join repositoryPath x) fs1) as Hbody.
  unfold is_file in Hx.
  assert (Hthrow : exists message,
             remove_one (join repositoryPath x) fs1 = (Throw message, fs1)).
  { rewrite Hbody.
    destruct (fs1 !! join repositoryPath x) as [[d|]|];
      [discriminate Hx | eexists; reflexivity | eexists; reflexivity]. }
  destruct Hthrow as [message Hthrow].
  destruct (loop_refused remove_one (fun f => join repositoryPath f)
              (fun l => map (fun f => join repositoryPath f) l)
              (fun m p => delete p m)
              pre x post fs fs1 r message) as [Hstate Hrun];
    [|exact Hpre|exact Hthrow|].
  { intros y fs0 u fs' H. rewrite remove_one_cases in H.
    destruct (fs0 !! y) as [[d|]|]; try discriminate H.
    injection H as _ <-. reflexivity. }
  split; [exact Hstate|]. exists message. exact Hrun.
Qed.

Lemma add_not_atomic (repositoryPath : string) (pre : list FileToCreate)
    (x : FileToCreate) (post : list FileToCreate) (fs fs1 : FS)
    (r : list string) :
  add join repositoryPath (inr pre) fs = (Ok r, fs1) ->
  add_refused join repositoryPath fs1 x ->
  fs1 = fold_left (added join repositoryPath) pre fs
  /\ exists message,
      add join repositoryPath (inr (pre ++ x :: post)) fs
      = (Throw message, fs1).
Proof.
  unfold add, add_refused, as_array. intros Hpre Hx.
  set (g := fun f : FileToCreate =>
              {| mpath := join repositoryPath (cpath f);
                 mdata := match cdata f with
                          | Some d => if Js.truthy_string d then d else ""
                          | None => ""
                          end |}) in *.
  pose proof (add_one_cases (g x) fs1) as Hbody.
  unfold exists_at in Hx.
  assert (Hthrow : exists message, add_one (g x) fs1 = (Throw message, fs1)).
  { rewrite Hbody. simpl mpath.
    destruct (fs1 !! join repositoryPath (cpath x)) as [node|];
      [eexists; reflexivity | discriminate Hx]. }
  destruct Hthrow as [message Hthrow].
  destruct (loop_refused add_one g
              (fun l => map (fun f => mpath f) (map g l))
              (fun m f => <[mpath f := File (mdata f)]> m)
              pre x post fs fs1 r message) as [Hstate Hrun];
    [|exact Hpre|exact Hthrow|].
  { intros y fs0 u fs' H. rewrite add_one_cases in H.
    destruct (fs0 !! mpath y); try discriminate H.
    injection H as _ <-. reflexivity. }
  split; [|exists message; exact Hrun].
  rewrite Hstate. apply fold_left_pointwise. intros m f.
  unfold added, g. simpl.
  destruct (cdata f) as [d|]; [rewrite falsy_string_empty|]; reflexivity.
Qed.

Lemma modify_not_atomic (repositoryPath : string) (pre : list FileToModify)
    (x : FileToModify) (post : list FileToModify) (fs fs1 : FS)
    (r : list string) :
  modify join repositoryPath (inr pre) fs = (Ok r, fs1) ->
  modify_refused join repositoryPath fs1 x ->
  fs1 = fold_left (modified join repositoryPath) pre fs
  /\ exists message,
      modify join repositoryPath (inr (pre ++ x :: post)) fs
      = (Throw message, fs1).
Proof.
  unfold modify, modify_refused, as_array. intros Hpre Hx.
  set (g := fun f : FileToModify =>
              {| mpath := join repositoryPath (mpath f);
                 mdata := mdata f |}) in *.
  pose proof (modify_one_cases (g x) fs1) as Hbody.
  unfold is_file in Hx.
  assert (Hthrow : exists message,
             modify_one (g x) fs1 = (Throw message, fs1)).
  { rewrite Hbody. simpl mpath.
    destruct (fs1 !! join repositoryPath (mpath x)) as [[d|]|];
      [discriminate Hx | eexists; reflexivity | eexists; reflexivity]. }
  destruct Hthrow as [message Hthrow].
  destruct (loop_refused modify_one g
              (fun l => map (fun f => mpath f) (map g l))
              (fun m f => <[mpath f := File (mdata f)]> m)
              pre x post fs fs1 r message) as [Hstate Hrun];
    [|exact Hpre|exact Hthrow|].
  { intros y fs0 u fs' H. rewrite modify_one_cases in H.
    destruct (fs0 !! mpath y) as [[d|]|]; try discriminate H.
    injection H as _ <-. reflexivity. }
  split; [exact Hstate | exists message; exact Hrun].
Qed.

Lemma rename_not_atomic (repositoryPath : string) (pre : list FileToRename)
    (x : FileToRename) (post : list FileToRename) (fs fs1 : FS)
    (r : list string) :
  rename join repositoryPath (inr pre) fs = (Ok r, fs1) ->
  rename_refused join repositoryPath fs1 x ->
  fs1 = fold_left (renamed join repositoryPath) pre fs
  /\ exists message,
      rename join repositoryPath (inr (pre ++ x :: post)) fs
      = (Throw message, fs1).
Proof.
  unfold rename, rename_refused, as_array. intros Hpre Hx.
  set (g := fun f : FileToRename =>
              {| oldPath := join repositoryPath (oldPath f);
                 newPath := join repositoryPath (newPath f) |}) in *.
  pose proof (rename_one_cases (g x) fs1) as Hbody.
  unfold is_file, exists_at in Hx.
  assert (Hthrow : exists message,
             rename_one (g x) fs1 = (Throw message, fs1)).
  { rewrite Hbody. simpl oldPath. simpl newPath.
    destruct (fs1 !! join repositoryPath (oldPath x)) as [[d|]|];
      destruct (fs1 !! join repositoryPath (newPath x)) as [other|];
      try (eexists; reflexivity);
      destruct Hx as [Hx|Hx]; discriminate Hx. }
  destruct Hthrow as [message Hthrow].
  destruct (loop_refused rename_one g
              (fun l => map (fun f => oldPath f) (map g l)
                          ++ map (fun f => newPath f) (map g l))
              (fun m f =>
                 match m !! oldPath f with
                 | Some node => <[newPath f := node]> (delete (oldPath f) m)
                 | None => m
                 end)
              pre x post fs fs1 r message) as [Hstate Hrun];
    [|exact Hpre|exact Hthrow|].
  { intros y fs0 u fs' H. rewrite rename_one_cases in H.
    destruct (fs0 !! oldPath y) as [[d|]|]; try discriminate H;
      destruct (fs0 !! newPath y); try discriminate H.
    injection H as _ <-. reflexivity. }
  split; [exact Hstate | exists message; exact Hrun].
Qed.

Lemma remove_ok (repositoryPath : string)
    (filesToDelete : string + list string) (fs fs' : FS) (r : list string) :
  remove join repositoryPath filesToDelete fs = (Ok r, fs') ->
  r = map (join repositoryPath) (as_array filesToDelete)
  /\ Forall (fun p => is_file fs p = true /\ fs' !! p = None) r.
Proof.
  unfold remove. intros H.
  apply loop_then_ret_ok in H as [Hloop ->].
  split; [reflexivity|].
  exact (proj1 (remove_loop_ok _ _ _ _ Hloop)).
Qed.

(** C10, amended.  The file helpers are not atomic.  When [remove], [add],
    [modify] or [rename] has got through the entries before the k-th and the k-th
    fails its check (for [remove] and [modify]: it does not exist or is a
    directory; for [add]: it exists already; for [rename]: the source does
    not exist or is a directory, or the destination exists), the call
    throws, and the file system it leaves is the one with the effect of
    every earlier entry applied: nothing is rolled back.  When [remove]
    succeeds it returns the joined path of every entry, as joined with the
    repository path and not made absolute, each of which was a file before
    and is gone afterwards. *)
Theorem C10_helpers_are_not_atomic :
  (forall (repositoryPath : string) (pre : list string) (x : string)
          (post : list string) (fs fs1 : FS) (r : list string),
      remove join repositoryPath (inr pre) fs = (Ok r, fs1) ->
      remove_refused join repositoryPath fs1 x ->
      fs1 = fold_left (removed join repositoryPath) pre fs
      /\ exists message,
          remove join repositoryPath (inr (pre ++ x :: post)) fs
          = (Throw message, fs1))
  /\ (forall (repositoryPath : string) (pre : list FileToCreate)
             (x : FileToCreate) (post : list FileToCreate) (fs fs1 : FS)
             (r : list string),
        add join repositoryPath (inr pre) fs = (Ok r, fs1) ->
        add_refused join repositoryPath fs1 x ->
        fs1 = fold_left (added join repositoryPath) pre fs
        /\ exists message,
            add join repositoryPath (inr (pre ++ x :: post)) fs
            = (Throw message, fs1))
  /\ (forall (repositoryPath : string) (pre : list FileToModify)
             (x : FileToModify) (post : list FileToModify) (fs fs1 : FS)
             (r : list string),
        modify join repositoryPath (inr pre) fs = (Ok r, fs1) ->
        modify_refused join repositoryPath fs1 x ->
        fs1 = fold_left (modified join repositoryPath) pre fs
        /\ exists message,
            modify join repositoryPath (inr (pre ++ x :: post)) fs
            = (Throw message, fs1))
  /\ (forall (repositoryPath : string) (pre : list FileToRename)
             (x : FileToRename) (post : list FileToRename) (fs fs1 : FS)
             (r : list string),
        rename join repositoryPath (inr pre) fs = (Ok r, fs1) ->
        rename_refused join repositoryPath fs1 x ->
        fs1 = fold_left (renamed join repositoryPath) pre fs
        /\ exists message,
            rename join repositoryPath (inr (pre ++ x :: post)) fs
            = (Throw message, fs1))
  /\ (forall (repositoryPath : string) (filesToDelete : string + list string)
             (fs fs' : FS) (r : list string),
        remove join repositoryPath filesToDelete fs = (Ok r, fs') ->
        r = map (join repositoryPath) (as_array filesToDelete)
        /\ Forall (fun p => is_file fs p = true /\ fs' !! p = None) r).
Proof.
  split; [exact remove_not_atomic|].
  split; [exact add_not_atomic|].
  split; [exact modify_not_atomic|].
  split; [exact rename_not_atomic|].
  exact remove_ok.
Qed.

End HelperClaims.

Section HelperRuns.

Import TestHelper HelperSpec.

(** C10, as stated, fails in one word: the paths [remove] returns are
    joined with the repository path, not made absolute.  Called with the
    relative repository path 'repo' it deletes the file and returns
    'repo/A.txt', which is not absolute. *)
Lemma C10_remove_returns_joined_paths :
  remove posix_join "repo" (inr ["A.txt"])
    (<["repo/A.txt" := File "A"]> ∅)
  = (Ok ["repo/A.txt"], delete "repo/A.txt" (<["repo/A.txt" := File "A"]> ∅))
  /\ ~ Forall (fun p => is_absolute p = true) ["repo/A.txt"].
Proof.
  split.
  - vm_compute. reflexivity.
  - intros H. apply Forall_inv in H. discriminate H.
Qed.

(** C10 on a small repository: each helper gets through its first entry
    and is refused at the second, and what the first entry did stays done. *)
Lemma C10_helpers_witness :
  (delete "/repo/A.txt" sample_fs
   = fold_left (removed posix_join "/repo") ["A.txt"] sample_fs
   /\ exists message,
       remove posix_join "/repo" (inr (["A.txt"] ++ "folder" :: ["B.txt"]))
         sample_fs
       = (Throw message, delete "/repo/A.txt" sample_fs))
  /\ (<["/repo/C.txt" := File "C"]> sample_fs
      = fold_left (added posix_join "/repo")
          [{| cpath := "C.txt"; cdata := Some "C" |}] sample_fs
      /\ exists message,
          add posix_join "/repo"
            (inr ([{| cpath := "C.txt"; cdata := Some "C" |}]
                    ++ {| cpath := "A.txt"; cdata := None |} :: []))
            sample_fs
          = (Throw message, <["/repo/C.txt" := File "C"]> sample_fs))
  /\ (<["/repo/A.txt" := File "A2"]> sample_fs
      = fold_left (modified posix_join "/repo")
          [{| mpath := "A.txt"; mdata := "A2" |}] sample_fs
      /\ exists message,
          modify posix_join "/repo"
            (inr ([{| mpath := "A.txt"; mdata := "A2" |}]
                    ++ {| mpath := "missing.txt"; mdata := "M" |} :: []))
            sample_fs
          = (Throw message, <["/repo/A.txt" := File "A2"]> sample_fs))
  /\ (<["/repo/D.txt" := File "A"]> (delete "/repo/A.txt" sample_fs)
      = fold_left (renamed posix_join "/repo")
          [{| oldPath := "A.txt"; newPath := "D.txt" |}] sample_fs
      /\ exists message,
          rename posix_join "/repo"
            (inr ([{| oldPath := "A.txt"; newPath := "D.txt" |}]
                    ++ {| oldPath := "B.txt"; newPath := "D.txt" |} :: []))
            sample_fs
          = (Throw message,
             <["/repo/D.txt" := File "A"]> (delete "/repo/A.txt" sample_fs)))
  /\ (["/repo/A.txt"; "/repo/B.txt"]
      = map (posix_join "/repo") (as_array (inr ["A.txt"; "B.txt"]))
      /\ Forall (fun p => is_file sample_fs p = true
                          /\ delete "/repo/B.txt"
                               (delete "/repo/A.txt" sample_fs) !! p = None)
           ["/repo/A.txt"; "/repo/B.txt"]).
Proof.
  pose proof (C10_helpers_are_not_atomic posix_join)
    as (Hremove & Hadd & Hmodify & Hrename & Hok).
  split; [|split; [|split; [|split]]].
  - apply (Hremove "/repo" ["A.txt"] "folder" ["B.txt"] sample_fs
             (delete "/repo/A.txt" sample_fs) ["/repo/A.txt"]);
      vm_compute; reflexivity.
  - apply (Hadd "/repo" [{| cpath := "C.txt"; cdata := Some "C" |}]
             {| cpath := "A.txt"; cdata := None |} [] sample_fs
             (<["/repo/C.txt" := File "C"]> sample_fs) ["/repo/C.txt"]);
      vm_compute; reflexivity.
  - apply (Hmodify "/repo" [{| mpath := "A.txt"; mdata := "A2" |}]
             {| mpath := "missing.txt"; mdata := "M" |} [] sample_fs
             (<["/repo/A.txt" := File "A2"]> sample_fs) ["/repo/A.txt"]);
      vm_compute; reflexivity.
  - apply (Hrename "/repo" [{| oldPath := "A.txt"; newPath := "D.txt" |}]
             {| oldPath := "B.txt"; newPath := "D.txt" |} [] sample_fs
             (<["/repo/D.txt" := File "A"]>
                (delete "/repo/A.txt" sample_fs))
             ["/repo/A.txt"; "/repo/D.txt"]).
    + vm_compute; reflexivity.
    + right. vm_compute; reflexivity.
  - apply (Hok "/repo" (inr ["A.txt"; "B.txt"]) sample_fs
             (delete "/repo/B.txt" (delete "/repo/A.txt" sample_fs))
             ["/repo/A.txt"; "/repo/B.txt"]).
    vm_compute; reflexivity.
Defined.

End HelperRuns.

(* ================================================================== *)
(** * Part IV: further properties of the code *)
(* ================================================================== *)

(** ** Process callbacks of the caller *)

Section ProcessCallbackFacts.

Import Progress Git Checkout Merge Spec.

Lemma fst_bind {A B : Type} (m : M A) (k : A -> M B) :
  fst (bind m k) = fst (k (fst m)).
Proof.
  unfold bind. destruct m as [a w1]. simpl.
  destruct (k a) as [b w2]. reflexivity.
Qed.

(** The function [checkoutBranch] hands to the adapter, for any callback. *)
Lemma handler_calls (name : string) (callback : ProgressCallback)
    (rs : list ProgressRecord) :
  trace (for_each rs
           (fun progress =>
              if String.eqb (Progress.kind progress) "progress" then
                match progress with
                | Progress text percent =>
                    callback
                      {| kind := "checkout";
                         title := "Checking out branch " +:+ name;
                         description := Some text;
                         value := percent;
                         targetBranch := Some name |}
                | Unknown => ret tt
                end
              else ret tt))
  = flat_map (fun e => trace (callback e)) (stream_events name rs).
Proof.
  induction rs as [|r rs IH]; simpl.
  - reflexivity.
  - rewrite trace_bind, IH. destruct r; reflexivity.
Qed.

(** X1. For a progress callback that returns from every invocation (one
    that throws is outside this model, and stops the call where it throws),
    whatever the callback does when it is invoked, a call of
    [checkoutBranch] with it does, in this order: what the callback does on
    the start event, the one run of git with the '--progress' flag, and then
    what the callback does on the event of each progress record of the
    stream, record by record.  The callback is invoked nowhere else. *)
Theorem checkoutBranch_sequences_callback (P : Parser) (process : ChildProcess)
    (repositoryPath name : string) (options : option IGitExecutionOptions)
    (callback : ProgressCallback) :
  trace (checkoutBranch P process repositoryPath name options (Some callback))
  = trace (callback (start_event name))
      ++ Spawned ["checkout"; "--progress"; name; "--"]
           repositoryPath "checkoutBranch"
      :: flat_map (fun e => trace (callback e))
           (stream_events name (records_of P (stderr process))).
Proof.
  unfold checkoutBranch. rewrite trace_bind, fst_bind.
  rewrite trace_bind. cbn [ret fst trace snd Js.truthy_opt].
  rewrite app_nil_r. f_equal.
  unfold git. rewrite trace_bind.
  cbn [tell fst trace snd with_processCallback processCallback app].
  f_equal. unfold progressProcessCallback. rewrite pump_records.
  unfold records_of. apply handler_calls.
Qed.

(** X2. A process callback that the caller puts into the options of
    [checkoutBranch] is never run: the options handed to git carry the
    adapter of the progress callback in its place, or no process callback at
    all when no progress callback was given.  With or without one, the call
    behaves as if the caller had supplied none. *)
Theorem checkoutBranch_drops_process_callback (P : Parser)
    (process : ChildProcess) (repositoryPath name : string)
    (input : option string) (mine : ProcessCallback)
    (progressCallback : option ProgressCallback) :
  checkoutBranch P process repositoryPath name
    (Some {| stdin := input; processCallback := Some mine |}) progressCallback
  = checkoutBranch P process repositoryPath name
      (Some {| stdin := input; processCallback := None |}) progressCallback
  /\ trace (checkoutBranch P process repositoryPath name
              (Some {| stdin := input; processCallback := Some mine |}) None)
     = [Spawned ["checkout"; name; "--"] repositoryPath "checkoutBranch"].
Proof. split; reflexivity. Qed.

End ProcessCallbackFacts.

(** ** The file helpers: what they touch and what they leave alone *)

Section HelperLoopFacts.

Import TestHelper HelperSpec.

(** A relation between the file system before and after that every turn of
    a loop keeps is kept by the loop, however it ends. *)
Lemma for_each_invariant {A : Type} (body : A -> M unit) (P : A -> Prop)
    (R : FS -> FS -> Prop) :
  (forall fs, R fs fs) ->
  (forall a b c, R a b -> R b c -> R a c) ->
  (forall x fs r fs', P x -> body x fs = (r, fs') -> R fs fs') ->
  forall xs fs r fs',
    Forall P xs -> for_each xs body fs = (r, fs') -> R fs fs'.
Proof.
  intros Hrefl Htrans Hbody.
  induction xs as [|x xs IH]; intros fs r fs' HP H; simpl in H.
  - injection H as _ <-. apply Hrefl.
  - apply Forall_cons_iff in HP as [Hx Hxs].
    unfold bind in H. destruct (body x fs) as [[u|e] fs1] eqn:Hb.
    + apply (Htrans _ fs1); [exact (Hbody _ _ _ _ Hx Hb) | exact (IH _ _ _ Hxs H)].
    + injection H as _ <-. exact (Hbody _ _ _ _ Hx Hb).
Qed.

Lemma loop_then_ret_state {A B : Type} (body : A -> M unit) (xs : list A)
    (result : B) (fs fs' : FS) (r : Result B) :
  bind (for_each xs body) (fun _ => ret result) fs = (r, fs') ->
  exists r0, for_each xs body fs = (r0, fs').
Proof.
  unfold bind, ret. destruct (for_each xs body fs) as [[u|e] fs1]; intros H;
    injection H as _ <-; eexists; reflexivity.
Qed.

(** A loop over two lists, one after the other. *)
Lemma for_each_append {A : Type} (body : A -> M unit) (xs ys : list A)
    (fs : FS) :
  for_each (xs ++ ys) body fs
  = match for_each xs body fs with
    | (Ok _, fs') => for_each ys body fs'
    | (Throw e, fs') => (Throw e, fs')
    end.
Proof.
  revert fs. induction xs as [|x xs IH]; intros fs; simpl.
  - reflexivity.
  - unfold bind. destruct (body x fs) as [[u|e] fs1]; [apply IH | reflexivity].
Qed.


Lemma add_one_frame (f : FileToModify) (q : string) (fs fs' : FS)
    (r : Result unit) :
  q <> mpath f -> add_one f fs = (r, fs') -> fs' !! q = fs !! q.
Proof.
  intros Hq H. rewrite add_one_cases in H.
  destruct (fs !! mpath f); injection H as _ <-; try reflexivity.
  apply lookup_insert_ne. congruence.
Qed.



Lemma not_in_map_forall {A : Type} (g : A -> string) (q : string)
    (xs : list A) :
  ~ In q (map g xs) -> Forall (fun x => q <> g x) xs.
Proof.
  intros H. apply List.Forall_forall. intros x Hx ->.
  apply H. apply in_map. exact Hx.
Qed.

End HelperLoopFacts.

Section HelperFrameClaims.

Import TestHelper HelperSpec.

Variable join : string -> string -> string.


End HelperFrameClaims.

(** ** The file helpers: successful runs and round trips *)

Section HelperRunFacts.

Import TestHelper HelperSpec FixtureSpec.

(** Creating only: what a successful run of the loop of [add] leaves. *)
Lemma add_loop_ok (l : list FileToModify) :
  forall (fs fs' : FS) (u : unit),
    for_each l add_one fs = (Ok u, fs') ->
    List.NoDup (map mpath l)
    /\ Forall (fun f => fs !! mpath f = None
                        /\ fs' !! mpath f = Some (File (mdata f))) l
    /\ (forall q node, fs !! q = Some node -> fs' !! q = Some node).
Proof.
  induction l as [|f l IH]; intros fs fs' u H; simpl in H.
  - injection H as _ <-. repeat split; [constructor | constructor | auto].
  - unfold bind in H. rewrite add_one_cases in H.
    destruct (fs !! mpath f) as [node|] eqn:E; [discriminate H|].
    apply IH in H as (Hnodup & Hall & Hmono).
    assert (Hfresh : ~ In (mpath f) (map mpath l)).
    { intros Hin. apply in_map_iff in Hin as [f' [Hp Hf']].
      rewrite List.Forall_forall in Hall. destruct (Hall _ Hf') as [Hnone _].
      rewrite Hp, lookup_insert_eq in Hnone. discriminate Hnone. }
    split; [constructor; assumption|]. split.
    + constructor.
      * split; [exact E|]. apply Hmono. apply lookup_insert_eq.
      * eapply List.Forall_impl; [|exact Hall].
        intros f' [Hnone Hsome]. split; [|exact Hsome].
        destruct (decide (mpath f = mpath f')) as [Heq|Hne].
        -- rewrite Heq, lookup_insert_eq in Hnone. discriminate Hnone.
        -- rewrite lookup_insert_ne in Hnone by exact Hne. exact Hnone.
    + intros q node Hq. apply Hmono.
      rewrite lookup_insert_ne; [exact Hq|]. congruence.
Qed.

(** Deleting distinct files goes through, and leaves the rest. *)
Lemma remove_loop_runs (ps : list string) :
  forall fs : FS,
    List.NoDup ps ->
    Forall (fun p => is_file fs p = true) ps ->
    for_each ps remove_one fs
    = (Ok tt, fold_left (fun m p => delete p m) ps fs).
Proof.
  induction ps as [|p ps IH]; intros fs Hnodup Hfiles; simpl.
  - reflexivity.
  - apply List.NoDup_cons_iff in Hnodup as [Hp Hnodup].
    apply Forall_cons_iff in Hfiles as [Hfile Hfiles].
    unfold bind. rewrite remove_one_cases.
    unfold is_file in Hfile.
    destruct (fs !! p) as [[d|]|] eqn:E; try discriminate Hfile.
    apply IH; [exact Hnodup|].
    rewrite List.Forall_forall in *. intros q Hq.
    unfold is_file. rewrite lookup_delete_ne; [exact (Hfiles q Hq)|].
    intros ->. exact (Hp Hq).
Qed.

Lemma lookup_fold_delete_in (ps : list string) (q : string) :
  forall fs : FS,
    In q ps -> fold_left (fun m p => delete p m) ps fs !! q = None.
Proof.
  induction ps as [|p ps IH]; intros fs Hin; simpl; [destruct Hin|].
  destruct (in_dec String.string_dec q ps) as [Hq|Hq]; [apply IH; exact Hq|].
  destruct Hin as [->|Hin]; [|contradiction].
  clear IH. revert fs. induction ps as [|p ps IH]; intros fs; simpl.
  - apply lookup_delete_eq.
  - rewrite delete_delete. apply IH. intros Hin. apply Hq. right. exact Hin.
Qed.

Lemma lookup_fold_delete_out (ps : list string) (q : string) :
  forall fs : FS,
    ~ In q ps -> fold_left (fun m p => delete p m) ps fs !! q = fs !! q.
Proof.
  induction ps as [|p ps IH]; intros fs Hout; simpl; [reflexivity|].
  rewrite IH by (intros Hin; apply Hout; right; exact Hin).
  apply lookup_delete_ne. intros ->. apply Hout. left. reflexivity.
Qed.

Lemma remove_loop_distinct (ps : list string) :
  forall (fs fs' : FS) (u : unit),
    for_each ps remove_one fs = (Ok u, fs') -> List.NoDup ps.
Proof.
  induction ps as [|p ps IH]; intros fs fs' u H; [constructor|].
  pose proof (remove_loop_ok _ _ _ _ H) as [Hall _].
  simpl in H. unfold bind in H. rewrite remove_one_cases in H.
  destruct (fs !! p) as [[d|]|] eqn:E; try discriminate H.
  constructor; [|exact (IH _ _ _ H)].
  intros Hin. pose proof (remove_loop_ok _ _ _ _ H) as [Htail _].
  rewrite List.Forall_forall in Htail. destruct (Htail _ Hin) as [Hfile _].
  unfold is_file in Hfile. rewrite lookup_delete_eq in Hfile.
  discriminate Hfile.
Qed.

(** Undoing one renaming. *)
Lemma rename_one_back (f : FileToRename) (fs fs' : FS) (u : unit) :
  rename_one f fs = (Ok u, fs') ->
  oldPath f <> newPath f /\ rename_one (swap f) fs' = (Ok tt, fs).
Proof.
  intros H. rewrite rename_one_cases in H.
  destruct (fs !! oldPath f) as [[d|]|] eqn:Eold; try discriminate H;
    destruct (fs !! newPath f) as [node|] eqn:Enew; try discriminate H.
  injection H as _ <-.
  assert (Hne : oldPath f <> newPath f) by congruence.
  split; [exact Hne|].
  rewrite rename_one_cases. unfold swap. simpl.
  rewrite lookup_insert_eq.
  rewrite lookup_insert_ne by congruence. rewrite lookup_delete_eq.
  f_equal. rewrite delete_insert_eq.
  rewrite (delete_id (delete (oldPath f) fs) (newPath f)).
  2:{ rewrite lookup_delete_ne by exact Hne. exact Enew. }
  rewrite insert_delete_eq. apply insert_id. exact Eold.
Qed.

Lemma rename_loop_back (l : list FileToRename) :
  forall (fs fs' : FS) (u : unit),
    for_each l rename_one fs = (Ok u, fs') ->
    Forall (fun f => oldPath f <> newPath f) l
    /\ for_each (rev (map swap l)) rename_one fs' = (Ok tt, fs).
Proof.
  induction l as [|f l IH]; intros fs fs' u H; simpl in H.
  - injection H as _ <-. split; [constructor | reflexivity].
  - unfold bind in H. destruct (rename_one f fs) as [[v|e] fs1] eqn:Hf;
      [|discriminate H].
    apply rename_one_back in Hf as [Hne Hback].
    apply IH in H as [Hall Hrest].
    split; [constructor; assumption|].
    simpl. rewrite for_each_append, Hrest. simpl.
    unfold bind. rewrite Hback. reflexivity.
Qed.

End HelperRunFacts.

Section HelperRunClaims.

Import TestHelper HelperSpec FixtureSpec.

Variable join : string -> string -> string.

(** The entries of [add] once joined with the repository path. *)
Lemma add_entries (repositoryPath : string) (l : list FileToCreate) :
  map mpath
    (map (fun f =>
            {| mpath := join repositoryPath (cpath f);
               mdata := match cdata f with
                        | Some d => if Js.truthy_string d then d else ""
                        | None => ""
                        end |}) l)
  = map (fun f => join repositoryPath (cpath f)) l.
Proof. rewrite map_map. reflexivity. Qed.

(** X5. When [add] returns, it returns the joined path of every entry in
    order; nothing was found at any of them before, and each is afterwards a
    file holding the data given for it, the empty text when none was
    given. *)
Theorem add_creates_what_was_asked (repositoryPath : string)
    (filesToCreate : FileToCreate + list FileToCreate) (fs fs' : FS)
    (r : list string) :
  add join repositoryPath filesToCreate fs = (Ok r, fs') ->
  r = map (fun f => join repositoryPath (cpath f)) (as_array filesToCreate)
  /\ Forall (fun f =>
              fs !! join repositoryPath (cpath f) = None
              /\ fs' !! join repositoryPath (cpath f)
                 = Some (File (match cdata f with
                               | Some d => d
                               | None => ""
                               end)))
       (as_array filesToCreate).
Proof.
  unfold add. intros H. apply loop_then_ret_ok in H as [Hloop ->].
  split; [apply add_entries|].
  apply add_loop_ok in Hloop as (_ & Hall & _).
  rewrite List.Forall_forall in *. intros f Hf.
  specialize (Hall _ (in_map _ _ _ Hf)). simpl in Hall.
  destruct (cdata f) as [d|]; [rewrite falsy_string_empty in Hall|];
    exact Hall.
Qed.

(** X6. A list that names the same joined path twice is never got
    through: when [remove] or [add] returns, the joined paths of its entries
    are pairwise distinct; and when [rename] returns, the joined source and
    destination of every entry differ. *)
Theorem success_needs_distinct_paths (repositoryPath : string) (fs fs' : FS)
    (r : list string) :
  (forall filesToDelete,
      remove join repositoryPath filesToDelete fs = (Ok r, fs') ->
      List.NoDup (map (join repositoryPath) (as_array filesToDelete)))
  /\ (forall filesToCreate,
        add join repositoryPath filesToCreate fs = (Ok r, fs') ->
        List.NoDup (map (fun f => join repositoryPath (cpath f))
                      (as_array filesToCreate)))
  /\ (forall filesToRename,
        rename join repositoryPath filesToRename fs = (Ok r, fs') ->
        Forall (fun f => join repositoryPath (oldPath f)
                         <> join repositoryPath (newPath f))
          (as_array filesToRename)).
Proof.
  split; [|split].
  - intros files H. unfold remove in H.
    apply loop_then_ret_ok in H as [Hloop _].
    exact (remove_loop_distinct _ _ _ _ Hloop).
  - intros files H. unfold add in H.
    apply loop_then_ret_ok in H as [Hloop _].
    apply add_loop_ok in Hloop as (Hnodup & _ & _).
    rewrite add_entries in Hnodup. exact Hnodup.
  - intros files H. unfold rename in H.
    apply loop_then_ret_ok in H as [Hloop _].
    apply rename_loop_back in Hloop as [Hall _].
    rewrite List.Forall_forall in *. intros f Hf.
    exact (Hall _ (in_map _ _ _ Hf)).
Qed.

(** X7. Removing what was just added gives back the file system as it was:
    when [add] returns, [remove] of the same paths in the file system it
    left returns the same joined paths and leaves the file system [add]
    started from. *)
Theorem remove_undoes_add (repositoryPath : string)
    (filesToCreate : list FileToCreate) (fs fs1 : FS) (r : list string) :
  add join repositoryPath (inr filesToCreate) fs = (Ok r, fs1) ->
  remove join repositoryPath (inr (map cpath filesToCreate)) fs1 = (Ok r, fs).
Proof.
  unfold add, remove. simpl as_array. intros Hadd.
  apply loop_then_ret_ok in Hadd as [Hloop ->].
  set (l := map (fun f : FileToCreate =>
                   {| mpath := join repositoryPath (cpath f);
                      mdata := match cdata f with
                               | Some d => if Js.truthy_string d then d else ""
                               | None => ""
                               end |}) filesToCreate) in *.
  assert (Hpaths : map (fun f => join repositoryPath f)
                     (map cpath filesToCreate) = map mpath l).
  { unfold l. rewrite !map_map. reflexivity. }
  rewrite Hpaths.
  pose proof (add_loop_ok _ _ _ _ Hloop) as (Hnodup & Hall & _).
  rewrite List.Forall_forall in Hall.
  unfold bind. rewrite remove_loop_runs.
  - unfold ret. f_equal. apply map_eq. intros q.
    destruct (in_dec String.string_dec q (map mpath l)) as [Hin|Hout].
    + rewrite lookup_fold_delete_in by exact Hin.
      apply in_map_iff in Hin as [f [<- Hf]].
      symmetry. exact (proj1 (Hall _ Hf)).
    + rewrite lookup_fold_delete_out by exact Hout.
      apply (for_each_invariant add_one (fun f => q <> mpath f)
               (fun a b => b !! q = a !! q)) in Hloop; auto.
      * intros a b c Hab Hbc. congruence.
      * intros x fs0 r1 fs2 Hx Hb. exact (add_one_frame _ _ _ _ _ Hx Hb).
      * apply not_in_map_forall. exact Hout.
  - exact Hnodup.
  - apply List.Forall_forall. intros p Hp.
    apply in_map_iff in Hp as [f [<- Hf]].
    unfold is_file. rewrite (proj2 (Hall _ Hf)). reflexivity.
Qed.

(** X8. Renaming back gives back the file system as it was: when [rename]
    returns, [rename] of the same entries, taken in the opposite order and
    each with its two paths exchanged, returns in the file system it left
    and leaves the file system the first call started from. *)
Theorem rename_back_undoes_rename (repositoryPath : string)
    (filesToRename : list FileToRename) (fs fs1 : FS) (r : list string) :
  rename join repositoryPath (inr filesToRename) fs = (Ok r, fs1) ->
  exists r',
    rename join repositoryPath (inr (rev (map swap filesToRename))) fs1
    = (Ok r', fs).
Proof.
  unfold rename. simpl as_array. intros H.
  apply loop_then_ret_ok in H as [Hloop _].
  apply rename_loop_back in Hloop as [_ Hback].
  set (g := fun f : FileToRename =>
              {| oldPath := join repositoryPath (oldPath f);
                 newPath := join repositoryPath (newPath f) |}) in *.
  assert (Hlist : map g (rev (map swap filesToRename))
                  = rev (map swap (map g filesToRename))).
  { rewrite map_rev, !map_map. reflexivity. }
  eexists. unfold bind. rewrite Hlist, Hback. reflexivity.
Qed.

End HelperRunClaims.

(** ** The file helpers: what they never do *)

Section HelperNeverClaims.

Import TestHelper HelperSpec.

Variable join : string -> string -> string.

Lemma forall_true {A : Type} (xs : list A) : Forall (fun _ => True) xs.
Proof. apply List.Forall_forall. intros x _. exact I. Qed.



(** X9. Whether they return or throw, [remove] creates nothing and changes
    no content (what is found afterwards was there before), [add] deletes
    and overwrites nothing (what was there before is found afterwards),
    [modify] creates and deletes nothing and turns no file into a directory
    or back, and [rename] leaves the number of entries of the file system as
    it was. *)
Theorem helpers_never (repositoryPath : string) (fs fs' : FS)
    (r : Result (list string)) :
  (forall filesToDelete,
      remove join repositoryPath filesToDelete fs = (r, fs') ->
      forall q node, fs' !! q = Some node -> fs !! q = Some node)
  /\ (forall filesToCreate,
        add join repositoryPath filesToCreate fs = (r, fs') ->
        forall q node, fs !! q = Some node -> fs' !! q = Some node)
  /\ (forall filesToModify,
        modify join repositoryPath filesToModify fs = (r, fs') ->
        forall q, exists_at fs' q = exists_at fs q
                  /\ is_file fs' q = is_file fs q)
  /\ (forall filesToRename,
        rename join repositoryPath filesToRename fs = (r, fs') ->
        size fs' = size fs).
Proof.
  split; [|split; [|split]].
  - intros files H. unfold remove in H.
    apply loop_then_ret_state in H as [r0 H].
    eapply (for_each_invariant remove_one (fun _ => True)
              (fun a b => forall q node,
                   b !! q = Some node -> a !! q = Some node));
      [ | | | apply forall_true | exact H ].
    + intros a q node Hq. exact Hq.
    + intros a b c Hab Hbc q node Hq. apply Hab, Hbc. exact Hq.
    + intros x fs0 r1 fs1 _ Hb q node Hq. rewrite remove_one_cases in Hb.
      destruct (fs0 !! x) as [[d|]|]; injection Hb as _ <-; try exact Hq.
      apply lookup_delete_Some in Hq as [_ Hq]. exact Hq.
  - intros files H. unfold add in H.
    apply loop_then_ret_state in H as [r0 H].
    eapply (for_each_invariant add_one (fun _ => True)
              (fun a b => forall q node,
                   a !! q = Some node -> b !! q = Some node));
      [ | | | apply forall_true | exact H ].
    + intros a q node Hq. exact Hq.
    + intros a b c Hab Hbc q node Hq. apply Hbc, Hab. exact Hq.
    + intros x fs0 r1 fs1 _ Hb q node Hq. rewrite add_one_cases in Hb.
      destruct (fs0 !! mpath x) as [other|] eqn:E; injection Hb as _ <-;
        try exact Hq.
      rewrite lookup_insert_ne; [exact Hq | congruence].
  - intros files H. unfold modify in H.
    apply loop_then_ret_state in H as [r0 H].
    eapply (for_each_invariant modify_one (fun _ => True)
              (fun a b => forall q, exists_at b q = exists_at a q
                                    /\ is_file b q = is_file a q));
      [ | | | apply forall_true | exact H ].
    + intros a q. split; reflexivity.
    + intros a b c Hab Hbc q. destruct (Hab q), (Hbc q). split; congruence.
    + intros x fs0 r1 fs1 _ Hb q. rewrite modify_one_cases in Hb.
      destruct (fs0 !! mpath x) as [[d|]|] eqn:E; injection Hb as _ <-;
        try (split; reflexivity).
      unfold exists_at, is_file.
      destruct (decide (mpath x = q)) as [<-|Hne].
      * rewrite lookup_insert_eq, E. split; reflexivity.
      * rewrite lookup_insert_ne by exact Hne. split; reflexivity.
  - intros files H. unfold rename in H.
    apply loop_then_ret_state in H as [r0 H].
    eapply (for_each_invariant rename_one (fun _ => True)
              (fun a b => size b = size a));
      [ | | | apply forall_true | exact H ].
    + reflexivity.
    + intros a b c Hab Hbc. congruence.
    + intros x fs0 r1 fs1 _ Hb. rewrite rename_one_cases in Hb.
      destruct (fs0 !! oldPath x) as [[d|]|] eqn:Eold;
        destruct (fs0 !! newPath x) as [other|] eqn:Enew;
        injection Hb as _ <-; try reflexivity.
      assert (Hne : oldPath x <> newPath x) by congruence.
      rewrite map_size_insert_None.
      2:{ rewrite lookup_delete_ne by exact Hne. exact Enew. }
      rewrite map_size_delete_Some by (rewrite Eold; eauto).
      assert (Hsize : size fs0 <> 0).
      { apply (map_size_ne_0_lookup_2 fs0 (oldPath x)). rewrite Eold. eauto. }
      lia.
Qed.


End HelperNeverClaims.

(** ** The repository fixtures *)

Section FixtureClaims.

Import TestHelper Fixture FixtureSpec.

Variable tool : World -> GitCall -> Z * FS.

(** Taking the runs of [initRepository] one by one. *)
Ltac next_run :=
  match goal with
  | |- context [tool ?w ?c] =>
      let code := fresh "code" in
      let fs := fresh "fs" in
      let E := fresh "E" in
      destruct (tool w c) as [code fs] eqn:E; cbn;
      destruct (Z.eqb_spec code 0); cbn
  end.

(** X11. [initRepository] stops at the first run of git that fails.  It
    asks for 'init', the two 'config' runs, then 'add .' if [add] is set,
    then 'commit -F -' with the message on standard input if [commit] is set
    as well, in this order and each in the given directory.  Every run it
    issues but the last gave the exit code 0; when it returns, it returns
    the path, all the runs were issued and all gave 0; when it throws, the
    last run issued gave another exit code and the runs after it were not
    issued. *)
Theorem initRepository_stops_at_first_failure (path : string)
    (add commit : option bool) (w : World) :
  exists issued : list (GitCall * Z),
    calls (snd (initRepository tool path add commit w)) = calls w ++ issued
    /\ Forall (fun e => snd e = 0%Z) (List.removelast issued)
    /\ match fst (initRepository tool path add commit w) with
       | Ok p =>
           p = path
           /\ map fst issued = plan path add commit
           /\ Forall (fun e => snd e = 0%Z) issued
       | Throw _ =>
           snd (List.last issued (add_call path, 0%Z)) <> 0%Z
           /\ exists rest, plan path add commit = map fst issued ++ rest
       end.
Proof.
  unfold initRepository, bind, git, throw_if, throw, ret, plan, setup_calls,
    add_call, commit_call.
  destruct add as [[|]|], commit as [[|]|]; cbn;
    repeat next_run;
    eexists;
    (split; [rewrite <- ?app_assoc; reflexivity|]);
    cbn; subst;
    (split; [repeat constructor|]);
    first [ split; [reflexivity|]; split; [reflexivity | repeat constructor]
          | split; [assumption | eexists; reflexivity] ].
Qed.

(** X12. When every run of git gives the exit code 0, [initRepository]
    returns the path it was given after exactly the runs of its plan, in
    order: three runs when [add] is not set, whatever [commit] says (a
    commit is never asked for without staging first), four when only [add]
    is set and five when both are. *)
Theorem initRepository_runs_its_plan (path : string) (add commit : option bool)
    (w : World) :
  (forall w0 c, fst (tool w0 c) = 0%Z) ->
  fst (initRepository tool path add commit w) = Ok path
  /\ map fst (calls (snd (initRepository tool path add commit w)))
     = map fst (calls w) ++ plan path add commit
  /\ length (plan path add commit)
     = (3 + (if Js.truthy_flag add
             then 1 + (if Js.truthy_flag commit then 1 else 0)
             else 0))%nat
  /\ (Js.truthy_flag add = false ->
      Forall (fun c => call_name c <> "createCommit")
        (plan path add commit)).
Proof.
  intros Hzero.
  assert (Hlen : length (plan path add commit)
                 = (3 + (if Js.truthy_flag add
                         then 1 + (if Js.truthy_flag commit then 1 else 0)
                         else 0))%nat).
  { unfold plan. destruct (Js.truthy_flag add), (Js.truthy_flag commit);
      reflexivity. }
  assert (Hnocommit : Js.truthy_flag add = false ->
            Forall (fun c => call_name c <> "createCommit")
              (plan path add commit)).
  { intros Hadd. unfold plan. rewrite Hadd.
    repeat constructor; discriminate. }
  split; [|split; [|split; [exact Hlen | exact Hnocommit]]];
    clear Hlen Hnocommit;
    unfold initRepository, bind, git, throw_if, throw, ret, plan, setup_calls,
      add_call, commit_call;
    destruct add as [[|]|], commit as [[|]|]; cbn;
    repeat (match goal with
            | |- context [tool ?w0 ?c] =>
                let H := fresh "H" in
                let code := fresh "code" in
                let fs := fresh "fs" in
                pose proof (Hzero w0 c) as H;
                destruct (tool w0 c) as [code fs];
                cbn in H; subst; cbn
            end);
    rewrite ?map_app, <- ?app_assoc; reflexivity.
Qed.

End FixtureClaims.

Section FixtureSeedFacts.

Import TestHelper Fixture FixtureSpec.

Lemma writeFileSync_ok (p data : string) (fs : FS) :
  fs !! p <> Some Directory ->
  writeFileSync p data fs = (Ok tt, <[p := File data]> fs).
Proof.
  intros H. unfold writeFileSync.
  destruct (fs !! p) as [[d|]|]; try reflexivity. congruence.
Qed.

Lemma not_directory_insert (k p : string) (node : Node) (fs : FS) :
  (k = p -> node <> Directory) ->
  fs !! p <> Some Directory ->
  <[k := node]> fs !! p <> Some Directory.
Proof.
  intros Hk Hp. destruct (decide (k = p)) as [->|Hne].
  - rewrite lookup_insert_eq. intros H. injection H as H. exact (Hk eq_refl H).
  - rewrite lookup_insert_ne by exact Hne. exact Hp.
Qed.

End FixtureSeedFacts.

Section FixtureSeedClaims.

Import TestHelper Fixture FixtureSpec.

Variable join : string -> string -> string.
Variable tool : World -> GitCall -> Z * FS.

(** X13. On a root that is an existing directory, where nothing is found
    at 'folder' and where none of 'A.txt', 'B.txt' and 'folder/C.txt' is a
    directory or the folder itself, [createTestRepository] first creates the
    folder and writes the three files, and only then sets the repository up:
    it ends as [initRepository] with staging and commit ends in the world
    whose file system already holds the four entries, and returns the root
    when that returns. *)
Theorem createTestRepository_seeds_then_sets_up (root : string) (w : World) :
  let folder := join root "folder" in
  let a := join root "A.txt" in
  let b := join root "B.txt" in
  let c := join folder "C.txt" in
  files w !! root = Some Directory ->
  files w !! folder = None ->
  a <> folder -> b <> folder -> c <> folder ->
  files w !! a <> Some Directory ->
  files w !! b <> Some Directory ->
  files w !! c <> Some Directory ->
  createTestRepository join tool root w
  = match initRepository tool root (Some true) (Some true)
            {| files := seeded join root (files w); calls := calls w |} with
    | (Ok _, w') => (Ok root, w')
    | (Throw e, w') => (Throw e, w')
    end
  /\ seeded join root (files w) !! c = Some (File "C")
  /\ (a <> b -> a <> c -> b <> c ->
      seeded join root (files w) !! folder = Some Directory
      /\ seeded join root (files w) !! a = Some (File "A")
      /\ seeded join root (files w) !! b = Some (File "B")).
Proof.
  intros folder a b c _ Hfree Ha Hb Hc Hda Hdb Hdc.
  split; [|split].
  - unfold createTestRepository, bind, on_files, mkdirSync, ret, seeded.
    fold folder a b c. destruct w as [fs cs]. cbn [files calls] in *.
    rewrite Hfree. cbn [files calls].
    rewrite (writeFileSync_ok a "A").
    2:{ apply not_directory_insert; [congruence | exact Hda]. }
    cbn [files calls]. rewrite (writeFileSync_ok b "B").
    2:{ apply not_directory_insert; [discriminate|].
        apply not_directory_insert; [congruence | exact Hdb]. }
    cbn [files calls]. rewrite (writeFileSync_ok c "C").
    2:{ apply not_directory_insert; [discriminate|].
        apply not_directory_insert; [discriminate|].
        apply not_directory_insert; [congruence | exact Hdc]. }
    cbn [files calls].
    destruct (initRepository tool root (Some true) (Some true) _)
      as [[p|e] w']; reflexivity.
  - apply lookup_insert_eq.
  - intros Hab Hac Hbc. unfold seeded. fold folder a b c.
    repeat split.
    + rewrite !lookup_insert_ne by congruence. apply lookup_insert_eq.
    + rewrite !lookup_insert_ne by congruence. apply lookup_insert_eq.
    + rewrite lookup_insert_ne by congruence. apply lookup_insert_eq.
Qed.

(** X14. [createTestRepository] is not atomic either: when something is
    already found at 'folder', as after an earlier run on the same root, it
    throws at once, with nothing written and git not run; and when the
    folder is free but 'A.txt' is a directory it throws after the folder was
    created, which stays, again with git not run. *)
Theorem createTestRepository_refusals (root : string) (w : World) :
  let folder := join root "folder" in
  let a := join root "A.txt" in
  (exists_at (files w) folder = true ->
   exists message,
     createTestRepository join tool root w = (Throw message, w))
  /\ (files w !! folder = None ->
      files w !! a = Some Directory ->
      exists message,
        createTestRepository join tool root w
        = (Throw message,
           {| files := <[folder := Directory]> (files w);
              calls := calls w |})).
Proof.
  intros folder a. destruct w as [fs cs]. cbn [files calls].
  unfold createTestRepository, bind, on_files, mkdirSync, writeFileSync,
    exists_at.
  fold folder a. cbn [files calls]. split.
  - intros H. destruct (fs !! folder) as [node|]; [|discriminate H].
    eexists. reflexivity.
  - intros Hfree Hdir. rewrite Hfree. cbn [files calls].
    assert (Hne : folder <> a) by congruence.
    rewrite lookup_insert_ne by exact Hne. rewrite Hdir.
    eexists. reflexivity.
Qed.

End FixtureSeedClaims.

(** ** Renaming moves the content *)

Section RenameMoveClaims.

Import TestHelper HelperSpec FixtureSpec.

Variable join : string -> string -> string.




End RenameMoveClaims.

(** ** Concrete runs *)

Section FurtherRuns.

Import TestHelper HelperSpec Fixture FixtureSpec.


(** X5 on two new files, one of them without data. *)
Lemma add_creates_what_was_asked_witness :
  ["/repo/C.txt"; "/repo/E.txt"]
  = map (fun f => posix_join "/repo" (cpath f))
      (as_array (inr [{| cpath := "C.txt"; cdata := Some "C" |};
                      {| cpath := "E.txt"; cdata := None |}]))
  /\ Forall (fun f =>
               sample_fs !! posix_join "/repo" (cpath f) = None
               /\ <["/repo/E.txt" := File ""]>
                    (<["/repo/C.txt" := File "C"]> sample_fs)
                    !! posix_join "/repo" (cpath f)
                  = Some (File (match cdata f with
                                | Some d => d
                                | None => ""
                                end)))
       (as_array (inr [{| cpath := "C.txt"; cdata := Some "C" |};
                       {| cpath := "E.txt"; cdata := None |}])).
Proof.
  apply (add_creates_what_was_asked posix_join "/repo"
           (inr [{| cpath := "C.txt"; cdata := Some "C" |};
                 {| cpath := "E.txt"; cdata := None |}])
           sample_fs
           (<["/repo/E.txt" := File ""]>
              (<["/repo/C.txt" := File "C"]> sample_fs))
           ["/repo/C.txt"; "/repo/E.txt"]).
  vm_compute. reflexivity.
Defined.

(** X6 on a [remove] of two files. *)
Lemma success_needs_distinct_paths_witness :
  List.NoDup (map (posix_join "/repo") (as_array (inr ["A.txt"; "B.txt"]))).
Proof.
  apply (proj1 (success_needs_distinct_paths posix_join "/repo" sample_fs
                  (delete "/repo/B.txt" (delete "/repo/A.txt" sample_fs))
                  ["/repo/A.txt"; "/repo/B.txt"])
           (inr ["A.txt"; "B.txt"])).
  vm_compute. reflexivity.
Defined.

(** X7 on two new files. *)
Lemma remove_undoes_add_witness :
  remove posix_join "/repo"
    (inr (map cpath [{| cpath := "C.txt"; cdata := Some "C" |};
                     {| cpath := "E.txt"; cdata := None |}]))
    (<["/repo/E.txt" := File ""]> (<["/repo/C.txt" := File "C"]> sample_fs))
  = (Ok ["/repo/C.txt"; "/repo/E.txt"], sample_fs).
Proof.
  apply (remove_undoes_add posix_join "/repo"
           [{| cpath := "C.txt"; cdata := Some "C" |};
            {| cpath := "E.txt"; cdata := None |}] sample_fs).
  vm_compute. reflexivity.
Defined.

(** X8 on a chain of two renamings. *)
Lemma rename_back_undoes_rename_witness :
  exists r',
    rename posix_join "/repo"
      (inr (rev (map swap [{| oldPath := "A.txt"; newPath := "D.txt" |};
                           {| oldPath := "D.txt"; newPath := "E.txt" |}])))
      (<["/repo/E.txt" := File "A"]> (delete "/repo/A.txt" sample_fs))
    = (Ok r', sample_fs).
Proof.
  apply (rename_back_undoes_rename posix_join "/repo"
           [{| oldPath := "A.txt"; newPath := "D.txt" |};
            {| oldPath := "D.txt"; newPath := "E.txt" |}] sample_fs
           (<["/repo/E.txt" := File "A"]> (delete "/repo/A.txt" sample_fs))
           ["/repo/A.txt"; "/repo/D.txt"; "/repo/D.txt"; "/repo/E.txt"]).
  vm_compute. reflexivity.
Defined.

(** X9 on a [modify] that throws at its second entry and on a [rename]. *)
Lemma helpers_never_witness :
  (forall q,
      exists_at (snd (modify posix_join "/repo"
                        (inr [{| mpath := "A.txt"; mdata := "A2" |};
                              {| mpath := "folder"; mdata := "F" |}])
                        sample_fs)) q
      = exists_at sample_fs q
      /\ is_file (snd (modify posix_join "/repo"
                         (inr [{| mpath := "A.txt"; mdata := "A2" |};
                               {| mpath := "folder"; mdata := "F" |}])
                         sample_fs)) q
         = is_file sample_fs q)
  /\ size (snd (rename posix_join "/repo"
                  (inr [{| oldPath := "A.txt"; newPath := "D.txt" |}])
                  sample_fs))
     = size sample_fs.
Proof.
  split.
  - apply (proj1 (proj2 (proj2
             (helpers_never posix_join "/repo" sample_fs
                (snd (modify posix_join "/repo"
                        (inr [{| mpath := "A.txt"; mdata := "A2" |};
                              {| mpath := "folder"; mdata := "F" |}])
                        sample_fs))
                (fst (modify posix_join "/repo"
                        (inr [{| mpath := "A.txt"; mdata := "A2" |};
                              {| mpath := "folder"; mdata := "F" |}])
                        sample_fs)))))
             (inr [{| mpath := "A.txt"; mdata := "A2" |};
                   {| mpath := "folder"; mdata := "F" |}])).
    apply surjective_pairing.
  - apply (proj2 (proj2 (proj2
             (helpers_never posix_join "/repo" sample_fs
                (snd (rename posix_join "/repo"
                        (inr [{| oldPath := "A.txt"; newPath := "D.txt" |}])
                        sample_fs))
                (fst (rename posix_join "/repo"
                        (inr [{| oldPath := "A.txt"; newPath := "D.txt" |}])
                        sample_fs)))))
             (inr [{| oldPath := "A.txt"; newPath := "D.txt" |}])).
    apply surjective_pairing.
Defined.


(** X12 with a tool that always succeeds, asked to commit without staging. *)
Lemma initRepository_runs_its_plan_witness :
  fst (initRepository quiet_tool "/repo" None (Some true)
         {| files := sample_fs; calls := [] |})
  = Ok "/repo"
  /\ map fst (calls (snd (initRepository quiet_tool "/repo" None (Some true)
                            {| files := sample_fs; calls := [] |})))
     = map fst (calls {| files := sample_fs; calls := [] |})
         ++ plan "/repo" None (Some true)
  /\ length (plan "/repo" None (Some true))
     = (3 + (if Js.truthy_flag None
             then 1 + (if Js.truthy_flag (Some true) then 1 else 0)
             else 0))%nat
  /\ (Js.truthy_flag None = false ->
      Forall (fun c => call_name c <> "createCommit")
        (plan "/repo" None (Some true))).
Proof.
  apply (initRepository_runs_its_plan quiet_tool "/repo" None (Some true)
           {| files := sample_fs; calls := [] |}).
  intros w0 c. reflexivity.
Defined.

(** X13 on a root directory that is there and empty. *)
Lemma createTestRepository_seeds_witness :
  createTestRepository posix_join quiet_tool "/new"
    {| files := <["/new" := Directory]> ∅; calls := [] |}
  = match initRepository quiet_tool "/new" (Some true) (Some true)
            {| files := seeded posix_join "/new" (<["/new" := Directory]> ∅);
               calls := [] |} with
    | (Ok _, w') => (Ok "/new", w')
    | (Throw e, w') => (Throw e, w')
    end
  /\ seeded posix_join "/new" (<["/new" := Directory]> ∅)
       !! "/new/folder/C.txt" = Some (File "C").
Proof.
  pose proof (createTestRepository_seeds_then_sets_up posix_join quiet_tool
                "/new" {| files := <["/new" := Directory]> ∅; calls := [] |})
    as H.
  cbv zeta in H.
  destruct H as (Hrun & Hc & _);
    first [ split; [exact Hrun | exact Hc]
          | vm_compute; reflexivity
          | vm_compute; discriminate ].
Defined.

(** X14 on the sample repository, where the folder is there already. *)
Lemma createTestRepository_refusals_witness :
  exists message,
    createTestRepository posix_join quiet_tool "/repo"
      {| files := sample_fs; calls := [] |}
    = (Throw message, {| files := sample_fs; calls := [] |}).
Proof.
  apply (proj1 (createTestRepository_refusals posix_join quiet_tool "/repo"
                  {| files := sample_fs; calls := [] |})).
  vm_compute. reflexivity.
Defined.


End FurtherRuns.
